(** * Scene persistence engine: a shallow embedding of [mitk::SceneIO]

    The development embeds [Modules/SceneSerialization/src/mitkSceneIO.cpp]
    as state-passing functions and proves the properties of the scene
    persistence specification against them.

    Conventions.
    - A [DataNode*] is an address ([DataNodePtr]); the node objects live
      in the environment ([deref]).  A null pointer is [None].
    - [std::map] is a [gmap]; [operator[]] on a missing key reads the
      default-constructed value.
    - The external collaborators (Poco, TinyXML, itksys, the serializers,
      the scene reader, the identifier generator) are not part of the
      file; the outcome of each call into them is read from an [Env].
    - The file system, the identifier counter and the heap of
      [DataStorage] objects form the mutable [World].
    - Poco is taken in its POSIX build: the separator is [/],
      [Poco::Path::transcode] returns its argument and [Poco::File]
      drops one trailing separator from the path it is built from. *)

From Stdlib Require Import String Ascii List Bool Arith Lia.
From stdpp Require Import base gmap strings list.

Local Open Scope string_scope.
Local Open Scope list_scope.
Set Warnings "-register-all".

(** ** TinyXML documents *)

Inductive TiXmlNode : Type :=
| TiXmlDeclaration (version encoding standalone : string)
| TiXmlElement (value : string) (attributes : list (string * string))
               (children : list TiXmlNode).

(** [TiXmlElement::SetAttribute]: replace the value of an attribute of
    that name, or append a new attribute. *)
Fixpoint set_attr (name value : string) (attrs : list (string * string))
  : list (string * string) :=
  match attrs with
  | [] => [(name, value)]
  | (n, v) :: rest =>
      if String.eqb n name then (n, value) :: rest
      else (n, v) :: set_attr name value rest
  end.

Definition SetAttribute (name value : string) (e : TiXmlNode) : TiXmlNode :=
  match e with
  | TiXmlElement tag attrs kids => TiXmlElement tag (set_attr name value attrs) kids
  | other => other
  end.

Definition LinkEndChild (child : TiXmlNode) (e : TiXmlNode) : TiXmlNode :=
  match e with
  | TiXmlElement tag attrs kids => TiXmlElement tag attrs (kids ++ [child])
  | other => other
  end.

Fixpoint get_attr (name : string) (attrs : list (string * string)) : option string :=
  match attrs with
  | [] => None
  | (n, v) :: rest => if String.eqb n name then Some v else get_attr name rest
  end.

Definition Attribute (name : string) (e : TiXmlNode) : option string :=
  match e with
  | TiXmlElement _ attrs _ => get_attr name attrs
  | _ => None
  end.

Definition Value (e : TiXmlNode) : string :=
  match e with
  | TiXmlElement tag _ _ => tag
  | _ => ""
  end.

Definition Children (e : TiXmlNode) : list TiXmlNode :=
  match e with
  | TiXmlElement _ _ kids => kids
  | _ => []
  end.

(** The child elements of [e] named [tag], in document order. *)
Definition ChildElements (tag : string) (e : TiXmlNode) : list TiXmlNode :=
  List.filter (fun c => String.eqb (Value c) tag) (Children e).

(** A [TiXmlDocument] is the list of its top-level children. *)
Definition TiXmlDocument := list TiXmlNode.

(** ** Scene objects *)

Definition DataNodePtr := nat.

Record PropertyList : Type := {
  pl_id : nat;
  pl_IsEmpty : bool
}.

Record BaseData : Type := {
  GetNameOfClass : string;
  bd_GetPropertyList : option PropertyList
}.

Record DataNode : Type := {
  GetName : string;
  GetData : option BaseData;
  GetPropertyListNames : list string;
  GetPropertyListOf : string -> option PropertyList;
  GetPropertyList : option PropertyList
}.

(** What [itk::ObjectFactoryBase::CreateAllInstance] hands back: objects
    that may or may not [dynamic_cast] to [BaseDataSerializer].  A
    serializer's [Serialize] gets the data, the filename hint and the
    working directory; [None] is a thrown [std::exception]. *)
Inductive LightObject : Type :=
| OtherObject
| BaseDataSerializer (Serialize : BaseData -> string -> string -> option string).

(** [PropertyListSerializer::Serialize] followed by
    [GetFailedProperties]. *)
Inductive PropertyListOutcome : Type :=
| PLWritten (file : string) (failed : option (gset string))
| PLThrows.

(** [mitk::DataStorage]: the nodes it holds and, per node, its direct
    sources. *)
Record DataStorage : Type := {
  ds_nodes : list DataNodePtr;
  ds_sources : gmap DataNodePtr (list DataNodePtr)
}.

Definition StandaloneDataStorage_New : DataStorage :=
  {| ds_nodes := []; ds_sources := ∅ |}.

Definition GetAll (ds : DataStorage) : list DataNodePtr := ds_nodes ds.

(** [GetSources(node)] with the default arguments: direct sources only. *)
Definition GetSources (ds : DataStorage) (node : DataNodePtr) : list DataNodePtr :=
  default [] (ds_sources ds !! node).

Definition Add (node : DataNodePtr) (parents : list DataNodePtr) (ds : DataStorage)
  : DataStorage :=
  {| ds_nodes := ds_nodes ds ++ [node];
     ds_sources := <[node := parents]> (ds_sources ds) |}.

Inductive RemoveOutcome : Type :=
| Removed
| RemoveThrew (remaining : DataStorage).

(** ** The environment: outcomes of calls into external code *)

Record Env : Type := {
  Path_temp : string;
  GetOptionDirectory : string;
  source_file : string;
  MakeCindentifier : string -> string;
  SplitProgramPath_dir : string -> string;
  uid_tail : nat -> string;
  deref : DataNodePtr -> DataNode;
  CreateAllInstance : string -> list LightObject;
  PropertyListSerializer_Serialize : PropertyList -> string -> string -> PropertyListOutcome;
  createDirectory_throws : string -> bool;
  Directory_remove_throws : string -> bool;
  SaveFile_ok : string -> bool;
  File_exists : string -> bool;
  File_remove_throws : string -> bool;
  ofstream_good : string -> bool;
  Compress_throws : string -> string -> bool;
  ifstream_good : string -> bool;
  decompress_errors : string -> nat;
  TiXml_LoadFile : string -> option TiXmlDocument;
  SceneReader_LoadScene :
    TiXmlDocument -> string -> DataStorage -> bool * list (DataNodePtr * list DataNodePtr);
  DataStorage_Remove : DataStorage -> RemoveOutcome
}.

(** ** The world: mutable state outside the [SceneIO] object *)

Record World : Type := {
  directories : list string;
  uid_count : nat;
  storages : gmap nat DataStorage;
  saved_documents : list (string * TiXmlDocument);
  archives : list (string * string)
}.

Definition set_directories (d : list string) (w : World) : World :=
  {| directories := d; uid_count := uid_count w; storages := storages w;
     saved_documents := saved_documents w; archives := archives w |}.

Definition set_uid_count (n : nat) (w : World) : World :=
  {| directories := directories w; uid_count := n; storages := storages w;
     saved_documents := saved_documents w; archives := archives w |}.

Definition set_storages (h : gmap nat DataStorage) (w : World) : World :=
  {| directories := directories w; uid_count := uid_count w; storages := h;
     saved_documents := saved_documents w; archives := archives w |}.

Definition add_saved_document (p : string) (d : TiXmlDocument) (w : World) : World :=
  {| directories := directories w; uid_count := uid_count w; storages := storages w;
     saved_documents := saved_documents w ++ [(p, d)]; archives := archives w |}.

Definition add_archive (dest dir : string) (w : World) : World :=
  {| directories := directories w; uid_count := uid_count w; storages := storages w;
     saved_documents := saved_documents w; archives := archives w ++ [(dest, dir)] |}.

(** ** The [SceneIO] object *)

Record SceneIO : Type := {
  m_WorkingDirectory : string;
  m_FailedNodes : option (list DataNodePtr);
  m_FailedProperties : option (gset string);
  m_UnzipErrors : nat
}.

Definition SceneIO_New : SceneIO :=
  {| m_WorkingDirectory := ""; m_FailedNodes := None;
     m_FailedProperties := None; m_UnzipErrors := 0 |}.

Definition set_WorkingDirectory (d : string) (this : SceneIO) : SceneIO :=
  {| m_WorkingDirectory := d; m_FailedNodes := m_FailedNodes this;
     m_FailedProperties := m_FailedProperties this;
     m_UnzipErrors := m_UnzipErrors this |}.

Definition set_UnzipErrors (n : nat) (this : SceneIO) : SceneIO :=
  {| m_WorkingDirectory := m_WorkingDirectory this;
     m_FailedNodes := m_FailedNodes this;
     m_FailedProperties := m_FailedProperties this;
     m_UnzipErrors := n |}.

Definition set_Failed (nodes : list DataNodePtr) (props : gset string) (this : SceneIO)
  : SceneIO :=
  {| m_WorkingDirectory := m_WorkingDirectory this;
     m_FailedNodes := Some nodes;
     m_FailedProperties := Some props;
     m_UnzipErrors := m_UnzipErrors this |}.

(** ** Poco paths and files (POSIX build) *)

Definition Path_separator : string := "/".

Definition Path_transcode (path : string) : string := path.

Definition GetDirectorySeparator : string := "/".

Definition string_empty (s : string) : bool :=
  match s with EmptyString => true | _ => false end.

(** The constructor of [Poco::File]: a path longer than one character
    loses one trailing separator. *)
Fixpoint drop_last_separator (s : string) : string :=
  match s with
  | EmptyString => EmptyString
  | String c EmptyString => if Ascii.eqb c "/"%char then EmptyString else s
  | String c rest => String c (drop_last_separator rest)
  end.

Definition Poco_File (path : string) : string :=
  match path with
  | String _ (String _ _) => drop_last_separator path
  | _ => path
  end.

Definition directory_exists (p : string) (w : World) : bool :=
  bool_decide (p ∈ directories w).

(** [Poco::File::createDirectory]: [false] when the directory is already
    there, [true] when it was made; [None] is a thrown exception. *)
Definition File_createDirectory (E : Env) (path : string) (w : World)
  : option (bool * World) :=
  let p := Poco_File path in
  if directory_exists p w then Some (false, w)
  else if createDirectory_throws E p then None
  else Some (true, set_directories (p :: directories w) w).

(** [Poco::File::remove(true)] on a directory: [None] is a thrown
    exception (also when there is nothing to remove). *)
Definition File_remove_recursive (E : Env) (path : string) (w : World) : option World :=
  let p := Poco_File path in
  if directory_exists p w then
    if Directory_remove_throws E p then None
    else Some (set_directories (List.filter (fun d => negb (String.eqb d p)) (directories w)) w)
  else None.

(** ** Identifier generator *)

Definition UIDGenerator_GetUID (E : Env) (prefix : string) (w : World) : string * World :=
  (prefix +:+ uid_tail E (uid_count w), set_uid_count (S (uid_count w)) w).

(** ** [SceneIO::CreateEmptyTempDirectory] *)

Definition CreateEmptyTempDirectory (E : Env) (w : World) : string * World :=
  let (uid1, w1) := UIDGenerator_GetUID E "UID_" w in
  let returnValue := Path_temp E +:+ "SceneIOTemp" +:+ uid1 in
  let uniquename := returnValue +:+ Path_separator in
  match File_createDirectory E uniquename w1 with
  | None => ("", w1)
  | Some (true, w2) => (returnValue, w2)
  | Some (false, w2) =>
      let (uid2, w3) := UIDGenerator_GetUID E "UID_" w2 in
      let returnValue2 :=
        GetOptionDirectory E +:+ Path_separator +:+ "SceneIOTempDirectory" +:+ uid2 in
      let uniquename2 := returnValue2 +:+ Path_separator in
      match File_createDirectory E uniquename2 w3 with
      | None => ("", w3)
      | Some (_, w4) => (returnValue2, w4)
      end
  end.

(** ** [SceneIO::SaveScene]: finding out about dependencies *)

(** The two maps of the first loop, and the world whose identifier
    counter the generator [nodeUIDGen] advances. *)
Record UIDState : Type := {
  nodeUIDs : gmap DataNodePtr string;
  sourceUIDs : gmap DataNodePtr (list string);
  uid_world : World
}.

(** [nodeUIDs[p]]: the mapped string, empty when there is none. *)
Definition uid_at (m : gmap DataNodePtr string) (p : DataNodePtr) : string :=
  default "" (m !! p).

(** [if (nodeUIDs[p].empty()) nodeUIDs[p] = nodeUIDGen.GetUID();] *)
Definition assign_uid (E : Env) (p : DataNodePtr) (st : UIDState) : UIDState :=
  if string_empty (uid_at (nodeUIDs st) p) then
    let (uid, w') := UIDGenerator_GetUID E "OBJECT_" (uid_world st) in
    {| nodeUIDs := <[p := uid]> (nodeUIDs st);
       sourceUIDs := sourceUIDs st;
       uid_world := w' |}
  else st.

(** [sourceUIDs[node].push_back(uid);] *)
Definition push_source (node : DataNodePtr) (uid : string) (st : UIDState) : UIDState :=
  {| nodeUIDs := nodeUIDs st;
     sourceUIDs := <[node := default [] (sourceUIDs st !! node) ++ [uid]]> (sourceUIDs st);
     uid_world := uid_world st |}.

(** [std::find(sceneNodes->begin(), sceneNodes->end(), *sourceIter) != end] *)
Definition in_scene (sceneNodes : list (option DataNodePtr)) (p : DataNodePtr) : bool :=
  bool_decide (Some p ∈ sceneNodes).

(** The body of the loop over the sources of [node]. *)
Definition visit_source (E : Env) (sceneNodes : list (option DataNodePtr))
    (node : DataNodePtr) (st : UIDState) (source : DataNodePtr) : UIDState :=
  if in_scene sceneNodes source then
    let st1 := assign_uid E source st in
    push_source node (uid_at (nodeUIDs st1) source) st1
  else st.

(** The body of the first loop over [sceneNodes]. *)
Definition visit_node (E : Env) (storage : DataStorage)
    (sceneNodes : list (option DataNodePtr)) (st : UIDState)
    (entry : option DataNodePtr) : UIDState :=
  match entry with
  | None => st
  | Some node =>
      let st1 := fold_left (visit_source E sceneNodes node) (GetSources storage node) st in
      assign_uid E node st1
  end.

(** The first loop, started on a prefix or on the whole of [sceneNodes]. *)
Definition visit_nodes (E : Env) (storage : DataStorage)
    (sceneNodes : list (option DataNodePtr)) (entries : list (option DataNodePtr))
    (st : UIDState) : UIDState :=
  fold_left (visit_node E storage sceneNodes) entries st.

Definition find_dependencies (E : Env) (storage : DataStorage)
    (sceneNodes : list (option DataNodePtr)) (w : World) : UIDState :=
  visit_nodes E storage sceneNodes sceneNodes
    {| nodeUIDs := ∅; sourceUIDs := ∅; uid_world := w |}.

(** ** [SceneIO::SaveBaseData] and [SceneIO::SavePropertyList] *)

(** The first object of the list that casts to a [BaseDataSerializer]. *)
Fixpoint first_serializer (candidates : list LightObject)
  : option (BaseData -> string -> string -> option string) :=
  match candidates with
  | [] => None
  | OtherObject :: rest => first_serializer rest
  | BaseDataSerializer run :: _ => Some run
  end.

(** Returns the [data] element and the [error] flag. *)
Definition SaveBaseData (E : Env) (this : SceneIO) (data : BaseData)
    (filenamehint : string) : TiXmlNode * bool :=
  let element := SetAttribute "type" (GetNameOfClass data) (TiXmlElement "data" [] []) in
  let serializername := GetNameOfClass data +:+ "Serializer" in
  let thingsThatCanSerializeThis := CreateAllInstance E serializername in
  match first_serializer thingsThatCanSerializeThis with
  | None => (element, true)
  | Some run =>
      let defaultLocale_WorkingDirectory := Path_transcode (m_WorkingDirectory this) in
      match run data filenamehint defaultLocale_WorkingDirectory with
      | Some writtenfilename => (SetAttribute "file" writtenfilename element, false)
      | None => (element, true)
      end
  end.

(** [m_FailedProperties->ConcatenatePropertyList(failed, true)], on the
    keys of the lists. *)
Definition ConcatenatePropertyList (failed : gset string) (acc : gset string) : gset string :=
  acc ∪ failed.

(** Returns the [properties] element and the failed-property list. *)
Definition SavePropertyList (E : Env) (this : SceneIO) (propertyList : PropertyList)
    (filenamehint : string) (failedProperties : gset string) : TiXmlNode * gset string :=
  let element := TiXmlElement "properties" [] [] in
  let defaultLocale_WorkingDirectory := Path_transcode (m_WorkingDirectory this) in
  match PropertyListSerializer_Serialize E propertyList filenamehint
          defaultLocale_WorkingDirectory with
  | PLWritten writtenfilename failed =>
      (SetAttribute "file" writtenfilename element,
       match failed with
       | Some f => ConcatenatePropertyList f failedProperties
       | None => failedProperties
       end)
  | PLThrows => (element, failedProperties)
  end.

(** ** [SceneIO::SaveScene]: writing out objects *)

(** What the second loop builds up: the document and the two failure
    accumulators. *)
Record WriteState : Type := {
  document : TiXmlDocument;
  failedNodes : list DataNodePtr;
  failedProperties : gset string
}.

Definition usable (pl : option PropertyList) : option PropertyList :=
  match pl with
  | Some l => if pl_IsEmpty l then None else Some l
  | None => None
  end.

(** [store all source IDs] *)
Definition link_sources (uids : list string) (nodeElement : TiXmlNode) : TiXmlNode :=
  fold_left
    (fun el uid => LinkEndChild (SetAttribute "UID" uid (TiXmlElement "source" [] [])) el)
    uids nodeElement.

(** [store basedata] *)
Definition store_basedata (E : Env) (this : SceneIO) (node : DataNodePtr)
    (filenameHint : string) (acc : TiXmlNode * list DataNodePtr * gset string)
  : TiXmlNode * list DataNodePtr * gset string :=
  let '(nodeElement, failedN, failedP) := acc in
  match GetData (deref E node) with
  | None => acc
  | Some data =>
      let (dataElement, error) := SaveBaseData E this data filenameHint in
      let failedN' := if error then failedN ++ [node] else failedN in
      let (dataElement', failedP') :=
        match usable (bd_GetPropertyList data) with
        | Some propertyList =>
            let (baseDataPropertiesElement, fp) :=
              SavePropertyList E this propertyList (filenameHint +:+ "-data") failedP in
            (LinkEndChild baseDataPropertiesElement dataElement, fp)
        | None => (dataElement, failedP)
        end in
      (LinkEndChild dataElement' nodeElement, failedN', failedP')
  end.

(** [store all renderwindow specific propertylists] *)
Definition store_renderwindow_lists (E : Env) (this : SceneIO) (node : DataNodePtr)
    (filenameHint : string) (acc : TiXmlNode * gset string) : TiXmlNode * gset string :=
  fold_left
    (fun (a : TiXmlNode * gset string) renderWindowName =>
       let (nodeElement, failedP) := a in
       match usable (GetPropertyListOf (deref E node) renderWindowName) with
       | Some propertyList =>
           let (renderWindowPropertiesElement, fp) :=
             SavePropertyList E this propertyList
               (filenameHint +:+ "-" +:+ renderWindowName) failedP in
           (LinkEndChild
              (SetAttribute "renderwindow" renderWindowName renderWindowPropertiesElement)
              nodeElement, fp)
       | None => a
       end)
    (GetPropertyListNames (deref E node)) acc.

(** [don't forget the renderwindow independent list] *)
Definition store_node_list (E : Env) (this : SceneIO) (node : DataNodePtr)
    (filenameHint : string) (acc : TiXmlNode * gset string) : TiXmlNode * gset string :=
  let (nodeElement, failedP) := acc in
  match usable (GetPropertyList (deref E node)) with
  | Some propertyList =>
      let (propertiesElement, fp) :=
        SavePropertyList E this propertyList (filenameHint +:+ "-node") failedP in
      (LinkEndChild propertiesElement nodeElement, fp)
  | None => acc
  end.

(** The [node] element of one non-null entry, up to the dependencies. *)
Definition node_header (uids : UIDState) (node : DataNodePtr) : TiXmlNode :=
  let nodeElement := TiXmlElement "node" [] [] in
  let nodeElement :=
    match nodeUIDs uids !! node with
    | Some uid => SetAttribute "UID" uid nodeElement
    | None => nodeElement
    end in
  match sourceUIDs uids !! node with
  | Some sources => link_sources sources nodeElement
  | None => nodeElement
  end.

(** One non-null entry of the second loop: the [node] element, and the
    accumulators after it. *)
Definition build_node (E : Env) (this : SceneIO) (uids : UIDState)
    (node : DataNodePtr) (failedN : list DataNodePtr) (failedP : gset string)
  : TiXmlNode * list DataNodePtr * gset string :=
  let filenameHint := MakeCindentifier E (GetName (deref E node)) in
  let nodeElement := node_header uids node in
  let '(nodeElement, failedN, failedP) :=
    store_basedata E this node filenameHint (nodeElement, failedN, failedP) in
  let (nodeElement, failedP) :=
    store_renderwindow_lists E this node filenameHint (nodeElement, failedP) in
  let (nodeElement, failedP) :=
    store_node_list E this node filenameHint (nodeElement, failedP) in
  (nodeElement, failedN, failedP).

(** The body of the second loop over [sceneNodes]. *)
Definition write_node (E : Env) (this : SceneIO) (uids : UIDState)
    (ws : WriteState) (entry : option DataNodePtr) : WriteState :=
  match entry with
  | None => ws
  | Some node =>
      let '(nodeElement, failedN, failedP) :=
        build_node E this uids node (failedNodes ws) (failedProperties ws) in
      {| document := document ws ++ [nodeElement];
         failedNodes := failedN;
         failedProperties := failedP |}
  end.

Definition write_nodes (E : Env) (this : SceneIO) (uids : UIDState)
    (entries : list (option DataNodePtr)) (ws : WriteState) : WriteState :=
  fold_left (write_node E this uids) entries ws.

(** [start XML DOM] *)
Definition document_start (E : Env) : TiXmlDocument :=
  [ TiXmlDeclaration "1.0" "UTF-8" "";
    SetAttribute "FileVersion" "1"
      (SetAttribute "Revision" "$Revision: 17055 $"
         (SetAttribute "Writer" (source_file E) (TiXmlElement "Version" [] []))) ].

(** ** [SceneIO::SaveScene]: manifest, archive, cleanup *)

(** From [document.SaveFile] to the end of [SaveScene] (the part after
    the two loops). *)
Definition write_archive (E : Env) (this : SceneIO) (doc : TiXmlDocument)
    (filename : string) (w : World) : bool * World :=
  let defaultLocale_WorkingDirectory := Path_transcode (m_WorkingDirectory this) in
  let index := defaultLocale_WorkingDirectory +:+ Path_separator +:+ "index.xml" in
  if negb (SaveFile_ok E index) then (false, w)
  else
    let w1 := add_saved_document index doc w in
    if File_exists E filename && File_remove_throws E filename then (false, w1)
    else if negb (ofstream_good E filename) then (false, w1)
    else if Compress_throws E (m_WorkingDirectory this) filename then (false, w1)
    else
      let w2 := add_archive filename (m_WorkingDirectory this) w1 in
      match File_remove_recursive E (m_WorkingDirectory this) w2 with
      | None => (false, w2)
      | Some w3 => (true, w3)
      end.

(** [sceneNodes] and [storage] are pointers and may be null.  The branch
    [sceneNodes.IsNull()] after the start of the document cannot be taken:
    a null [sceneNodes] has returned before. *)
Definition SaveScene (E : Env) (this : SceneIO)
    (sceneNodes : option (list (option DataNodePtr)))
    (storage : option DataStorage) (filename : string) (w : World)
  : bool * SceneIO * World :=
  match sceneNodes, storage with
  | None, _ => (false, this, w)
  | Some _, None => (false, this, w)
  | Some nodes, Some ds =>
      if string_empty filename then (false, this, w)
      else
        let this0 := set_Failed [] ∅ this in
        let (dir, w1) := CreateEmptyTempDirectory E w in
        let this1 := set_WorkingDirectory dir this0 in
        if string_empty (m_WorkingDirectory this1) then (false, this1, w1)
        else
          let uids := find_dependencies E ds nodes w1 in
          let ws := write_nodes E this1 uids nodes
                      {| document := document_start E;
                         failedNodes := [];
                         failedProperties := ∅ |} in
          let this2 := set_Failed (failedNodes ws) (failedProperties ws) this1 in
          let (ok, w2) := write_archive E this2 (document ws) filename (uid_world uids) in
          (ok, this2, w2)
  end.

(** ** [SceneIO::LoadScene] and [SceneIO::LoadSceneUnzipped] *)

(** The object a [DataStorage*] points to. *)
Definition storage_at (w : World) (l : nat) : DataStorage :=
  default StandaloneDataStorage_New (storages w !! l).

Definition store_storage (l : nat) (ds : DataStorage) (w : World) : World :=
  set_storages (<[l := ds]> (storages w)) w.

(** [DataStorage::Pointer storage = pStorage; if (storage.IsNull())
    storage = StandaloneDataStorage::New();] *)
Definition prepare_storage (pStorage : option nat) (w : World) : nat * World :=
  match pStorage with
  | Some l => (l, w)
  | None =>
      let l := fresh (dom (storages w)) in
      (l, store_storage l StandaloneDataStorage_New w)
  end.

(** Modelled from the spec: [DataStorage::Remove] is the "bulk removal of
    nodes" of the scene-graph abstraction; the nodes of the list leave
    the storage together with their relations. *)
Definition Remove (nodes : list DataNodePtr) (ds : DataStorage) : DataStorage :=
  let stays := fun n : DataNodePtr => bool_decide (n ∉ nodes) in
  {| ds_nodes := List.filter stays (ds_nodes ds);
     ds_sources := List.filter stays <$> filter (fun kv => kv.1 ∉ nodes) (ds_sources ds) |}.

(** [try { storage->Remove(storage->GetAll()); } catch (...) { }] *)
Definition clear_storage (E : Env) (l : nat) (w : World) : World :=
  let ds := storage_at w l in
  match DataStorage_Remove E ds with
  | Removed => store_storage l (Remove (GetAll ds) ds) w
  | RemoveThrew remaining => store_storage l remaining w
  end.

(** Modelled from the spec: [SceneReader::LoadScene] constructs the
    nodes of the manifest and adds each one, with its sources, to the
    storage it is given; the environment says which nodes those are and
    whether the reader reports success. *)
Definition reader_LoadScene (E : Env) (doc : TiXmlDocument) (workingDir : string)
    (l : nat) (w : World) : bool * World :=
  let ds := storage_at w l in
  let (ok, added) := SceneReader_LoadScene E doc workingDir ds in
  (ok, store_storage l (fold_left (fun d np => Add np.1 np.2 d) added ds) w).

Definition LoadSceneUnzipped (E : Env) (indexfilename : string)
    (pStorage : option nat) (clearStorageFirst : bool) (w : World)
  : option nat * World :=
  let (storage, w0) := prepare_storage pStorage w in
  let w1 := if clearStorageFirst then clear_storage E storage w0 else w0 in
  if string_empty indexfilename then (Some storage, w1)
  else
    let workingDir := SplitProgramPath_dir E indexfilename in
    match TiXml_LoadFile E indexfilename with
    | None => (Some storage, w1)
    | Some doc =>
        let (_, w2) := reader_LoadScene E doc workingDir storage w1 in
        (Some storage, w2)
    end.

(** [SceneIO::OnUnzipError] *)
Definition OnUnzipError (this : SceneIO) : SceneIO :=
  set_UnzipErrors (S (m_UnzipErrors this)) this.

(** Modelled from the spec: [Poco::Zip::Decompress::decompressAllFiles]
    "continues past entries that fail to extract", raising [EError] once
    per failed entry. *)
Definition decompressAllFiles (E : Env) (filename : string) (this : SceneIO) : SceneIO :=
  Nat.iter (decompress_errors E filename) OnUnzipError this.

(** [delete temp directory], errors swallowed. *)
Definition delete_temp_directory (E : Env) (this : SceneIO) (w : World) : World :=
  match File_remove_recursive E (m_WorkingDirectory this) w with
  | Some w' => w'
  | None => w
  end.

Definition LoadScene (E : Env) (this : SceneIO) (filename : string)
    (pStorage : option nat) (clearStorageFirst : bool) (w : World)
  : option nat * SceneIO * World :=
  let (storage, w0) := prepare_storage pStorage w in
  if string_empty filename then (Some storage, this, w0)
  else if negb (ifstream_good E filename) then (Some storage, this, w0)
  else
    let (dir, w1) := CreateEmptyTempDirectory E w0 in
    let this1 := set_WorkingDirectory dir this in
    if string_empty (m_WorkingDirectory this1) then (Some storage, this1, w1)
    else
      let this2 := decompressAllFiles E filename (set_UnzipErrors 0 this1) in
      let this3 := set_WorkingDirectory (Path_transcode (m_WorkingDirectory this2)) this2 in
      let indexFile := m_WorkingDirectory this3 +:+ GetDirectorySeparator +:+ "index.xml" in
      let (storage', w2) :=
        LoadSceneUnzipped E indexFile (Some storage) clearStorageFirst w1 in
      let w3 := delete_temp_directory E this3 w2 in
      (storage', this3, w3).

(** [GetFailedNodes] and [GetFailedProperties] *)
Definition GetFailedNodes (this : SceneIO) : option (list DataNodePtr) :=
  m_FailedNodes this.

Definition GetFailedProperties (this : SceneIO) : option (gset string) :=
  m_FailedProperties this.

(** ** Vocabulary of the properties *)

(** The two paths [CreateEmptyTempDirectory] may choose, and the
    directories [Poco::File] makes of them. *)
Definition first_choice (E : Env) (w : World) : string :=
  Path_temp E +:+ "SceneIOTemp" +:+ ("UID_" +:+ uid_tail E (uid_count w)).

Definition second_choice (E : Env) (w : World) : string :=
  GetOptionDirectory E +:+ Path_separator +:+ "SceneIOTempDirectory"
    +:+ ("UID_" +:+ uid_tail E (S (uid_count w))).

Definition first_directory (E : Env) (w : World) : string :=
  Poco_File (first_choice E w +:+ Path_separator).

Definition second_directory (E : Env) (w : World) : string :=
  Poco_File (second_choice E w +:+ Path_separator).

(** The non-null entries of a node set, in order. *)
Definition non_null (entries : list (option DataNodePtr)) : list DataNodePtr :=
  omap id entries.

(** The [error] flag [SaveBaseData] raises for the payload of [node]
    ([false] for a node without data). *)
Definition payload_error (E : Env) (this : SceneIO) (node : DataNodePtr) : bool :=
  match GetData (deref E node) with
  | Some data =>
      (SaveBaseData E this data (MakeCindentifier E (GetName (deref E node)))).2
  | None => false
  end.

(** The [node] element the second loop writes for [node]. *)
Definition node_element (E : Env) (this : SceneIO) (uids : UIDState)
    (node : DataNodePtr) : TiXmlNode :=
  (build_node E this uids node [] ∅).1.1.

Definition node_entries (doc : TiXmlDocument) : list TiXmlNode :=
  List.filter (fun c => String.eqb (Value c) "node") doc.

(** The identifiers a [node] element refers to as its sources. *)
Definition source_refs (nodeElement : TiXmlNode) : list (option string) :=
  Attribute "UID" <$> ChildElements "source" nodeElement.

(** The identifiers of [nodeUIDGen]. *)
Definition object_uid (E : Env) (k : nat) : string := "OBJECT_" +:+ uid_tail E k.

(** What the first loop keeps true of its state, started in the world
    [w0] on the node set [nodes]: every identifier in the map was drawn
    from the generator during the loop, for a node of the set; the
    generator was asked once per key; the rest of the world is as it
    was. *)
Record uid_invariant (E : Env) (nodes : list (option DataNodePtr)) (w0 : World)
    (st : UIDState) : Prop := {
  inv_drawn : forall p u, nodeUIDs st !! p = Some u ->
    exists k, uid_count w0 <= k < uid_count (uid_world st) /\
              u = object_uid E k /\ Some p ∈ nodes;
  inv_count : uid_count (uid_world st) = uid_count w0 + size (nodeUIDs st);
  inv_world : set_uid_count 0 (uid_world st) = set_uid_count 0 w0
}.

(** No two nodes share an identifier. *)
Definition uids_distinct (m : gmap DataNodePtr string) : Prop :=
  forall p q u, m !! p = Some u -> m !! q = Some u -> p = q.

(** How often [node] occurs in a node set. *)
Definition occurrences (node : DataNodePtr) (entries : list (option DataNodePtr)) : nat :=
  length (List.filter (fun e => bool_decide (e = Some node)) entries).

Definition initial_uids (w : World) : UIDState :=
  {| nodeUIDs := ∅; sourceUIDs := ∅; uid_world := w |}.

(** The [source] element of a dependency. *)
Definition mk_source (uid : string) : TiXmlNode :=
  TiXmlElement "source" [("UID", uid)] [].

(** The [SceneIO] object as the two loops of [SaveScene] see it. *)
Definition saving (dir : string) (this : SceneIO) : SceneIO :=
  set_WorkingDirectory dir (set_Failed [] ∅ this).

Definition start_state (E : Env) : WriteState :=
  {| document := document_start E; failedNodes := []; failedProperties := ∅ |}.

(** The document [SaveScene] hands to [SaveFile]. *)
Definition manifest (E : Env) (this : SceneIO) (ds : DataStorage)
    (nodes : list (option DataNodePtr)) (w : World) : TiXmlDocument :=
  document (write_nodes E this (find_dependencies E ds nodes w) nodes (start_state E)).

(** The sources of [node] that are saved with it. *)
Definition saved_sources (ds : DataStorage) (nodes : list (option DataNodePtr))
    (node : DataNodePtr) : list DataNodePtr :=
  List.filter (in_scene nodes) (GetSources ds node).

(** No call into the file system fails. *)
Record io_succeeds (E : Env) : Prop := {
  io_createDirectory : forall p, createDirectory_throws E p = false;
  io_remove_directory : forall p, Directory_remove_throws E p = false;
  io_SaveFile : forall p, SaveFile_ok E p = true;
  io_remove_file : forall p, File_remove_throws E p = false;
  io_ofstream : forall p, ofstream_good E p = true;
  io_Compress : forall d p, Compress_throws E d p = false
}.

(** The generator hands out a new identifier at every call, and none of
    them ends in a path separator. *)
Record uid_generator_ok (E : Env) : Prop := {
  uid_distinct : forall i j, uid_tail E i = uid_tail E j -> i = j;
  uid_plain : forall i, drop_last_separator (uid_tail E i) = uid_tail E i
}.

(** The serializer chosen for the payload of [node] throws. *)
Definition serializer_raises (E : Env) (node : DataNodePtr) : Prop :=
  exists data run,
    GetData (deref E node) = Some data /\
    first_serializer (CreateAllInstance E (GetNameOfClass data +:+ "Serializer")) = Some run /\
    forall hint dir, run data hint dir = None.

(** The payload of [node], if it has one, is written whatever the
    working directory. *)
Definition payload_written (E : Env) (node : DataNodePtr) : Prop :=
  forall this, payload_error E this node = false.

(** The storage the reconstruction of [LoadSceneUnzipped] starts from. *)
Definition cleared (E : Env) (clearStorageFirst : bool) (l : nat) (w : World)
  : DataStorage :=
  if clearStorageFirst then
    match DataStorage_Remove E (storage_at w l) with
    | Removed => Remove (GetAll (storage_at w l)) (storage_at w l)
    | RemoveThrew remaining => remaining
    end
  else storage_at w l.

(** The nodes the reader adds to the storage [ds], none when the
    manifest cannot be read. *)
Definition reloaded (E : Env) (indexfilename : string) (ds : DataStorage)
  : list DataNodePtr :=
  if string_empty indexfilename then []
  else match TiXml_LoadFile E indexfilename with
       | Some doc =>
           fst <$> (SceneReader_LoadScene E doc (SplitProgramPath_dir E indexfilename) ds).2
       | None => []
       end.

(** The [SceneIO] object of [LoadScene] once the archive is unpacked
    into the staging area [dir]. *)
Definition unzipped (E : Env) (filename dir : string) (this : SceneIO) : SceneIO :=
  let this2 :=
    decompressAllFiles E filename (set_UnzipErrors 0 (set_WorkingDirectory dir this)) in
  set_WorkingDirectory (Path_transcode (m_WorkingDirectory this2)) this2.

(** ** A sample scene and sample environments *)

Module Sample.

(** An injective stand-in for the random part of an identifier. *)
Fixpoint tally (n : nat) : string :=
  match n with
  | O => "0"
  | S k => String "I" (tally k)
  end.

Definition image : BaseData :=
  {| GetNameOfClass := "Image"; bd_GetPropertyList := None |}.

Definition surface : BaseData :=
  {| GetNameOfClass := "Surface";
     bd_GetPropertyList := Some {| pl_id := 7; pl_IsEmpty := false |} |}.

Definition plain_node (name : string) (data : option BaseData) : DataNode :=
  {| GetName := name;
     GetData := data;
     GetPropertyListNames := [];
     GetPropertyListOf := fun _ => None;
     GetPropertyList := Some {| pl_id := 0; pl_IsEmpty := true |} |}.

(** Node 1 holds an image, node 2 a surface, node 3 no data.  The names
    are C identifiers already, which [MakeCindentifier] leaves alone. *)
Definition nodes (p : DataNodePtr) : DataNode :=
  match p with
  | 1 => plain_node "ct_scan" (Some image)
  | 2 => plain_node "liver" (Some surface)
  | _ => plain_node "group" None
  end.

(** The image serializer writes a file; the surface serializer throws. *)
Definition factory (serializername : string) : list LightObject :=
  if String.eqb serializername "ImageSerializer" then
    [OtherObject; BaseDataSerializer (fun _ hint _ => Some (hint +:+ ".nrrd"))]
  else if String.eqb serializername "SurfaceSerializer" then
    [BaseDataSerializer (fun _ _ _ => None)]
  else [].

Definition env (saveFileOk : bool) (index : option TiXmlDocument)
    (added : list (DataNodePtr * list DataNodePtr)) : Env :=
  {| Path_temp := "/tmp/";
     GetOptionDirectory := "/home/user/.mitk";
     source_file := "mitkSceneIO.cpp";
     MakeCindentifier := fun s => s;
     SplitProgramPath_dir := fun s => s;
     uid_tail := tally;
     deref := nodes;
     CreateAllInstance := factory;
     PropertyListSerializer_Serialize := fun _ hint _ => PLWritten hint None;
     createDirectory_throws := fun _ => false;
     Directory_remove_throws := fun _ => false;
     SaveFile_ok := fun _ => saveFileOk;
     File_exists := fun _ => false;
     File_remove_throws := fun _ => false;
     ofstream_good := fun _ => true;
     Compress_throws := fun _ _ => false;
     ifstream_good := fun _ => true;
     decompress_errors := fun _ => 0;
     TiXml_LoadFile := fun _ => index;
     SceneReader_LoadScene := fun _ _ _ => (true, added);
     DataStorage_Remove := fun _ => Removed |}.

Definition calm : Env := env true None [].

(** Node 2 is derived from node 1; node 3 from node 2 and from node 9. *)
Definition storage : DataStorage :=
  {| ds_nodes := [1; 2; 3; 9];
     ds_sources := {[ 2 := [1]; 3 := [2; 9] ]} |}.

Definition world (dirs : list string) : World :=
  {| directories := dirs; uid_count := 0; storages := ∅;
     saved_documents := []; archives := [] |}.

Definition world_with (ds : DataStorage) : World :=
  {| directories := []; uid_count := 0; storages := {[ 5 := ds ]};
     saved_documents := []; archives := [] |}.

End Sample.

(** ** Environments that fail, and a node with property lists *)

Module Faulty.

(** Node 4 has no data, a default list and three lists for render
    windows, of which the second is empty and the third is null. *)
Definition nodes (p : DataNodePtr) : DataNode :=
  match p with
  | 4 =>
      {| GetName := "overlay";
         GetData := None;
         GetPropertyListNames := ["axial"; "sagittal"; "coronal"];
         GetPropertyListOf := fun name =>
           if String.eqb name "axial" then Some {| pl_id := 1; pl_IsEmpty := false |}
           else if String.eqb name "sagittal" then Some {| pl_id := 2; pl_IsEmpty := true |}
           else None;
         GetPropertyList := Some {| pl_id := 3; pl_IsEmpty := false |} |}
  | _ => Sample.nodes p
  end.

(** The image serializer is registered twice, behind an object that is
    no serializer; the second registration would write another file. *)
Definition factory (serializername : string) : list LightObject :=
  if String.eqb serializername "ImageSerializer" then
    [OtherObject;
     BaseDataSerializer (fun _ hint _ => Some (hint +:+ ".nrrd"));
     BaseDataSerializer (fun _ hint _ => Some (hint +:+ ".png"))]
  else if String.eqb serializername "SurfaceSerializer" then
    [OtherObject; OtherObject]
  else [].

(** The property list with key 3 loses the property [color]. *)
Definition serialize_list (pl : PropertyList) (hint dir : string) : PropertyListOutcome :=
  if Nat.eqb (pl_id pl) 3 then PLWritten hint (Some {[ "color" ]})
  else PLWritten hint None.

Definition env (mkdirThrows rmdirThrows : bool) (unzipErrors : nat) : Env :=
  {| Path_temp := "/tmp/";
     GetOptionDirectory := "/home/user/.mitk";
     source_file := "mitkSceneIO.cpp";
     MakeCindentifier := fun s => s;
     SplitProgramPath_dir := fun s => s;
     uid_tail := Sample.tally;
     deref := nodes;
     CreateAllInstance := factory;
     PropertyListSerializer_Serialize := serialize_list;
     createDirectory_throws := fun _ => mkdirThrows;
     Directory_remove_throws := fun _ => rmdirThrows;
     SaveFile_ok := fun _ => true;
     File_exists := fun _ => true;
     File_remove_throws := fun _ => false;
     ofstream_good := fun _ => true;
     Compress_throws := fun _ _ => false;
     ifstream_good := fun _ => true;
     decompress_errors := fun _ => unzipErrors;
     TiXml_LoadFile := fun _ => Some [];
     SceneReader_LoadScene := fun _ _ _ => (false, [(30, [])]);
     DataStorage_Remove := fun _ => Removed |}.

(** A [SceneIO] object that has saved and loaded before. *)
Definition used : SceneIO :=
  {| m_WorkingDirectory := "/tmp/SceneIOTempUID_old";
     m_FailedNodes := Some [8];
     m_FailedProperties := Some {[ "opacity" ]};
     m_UnzipErrors := 5 |}.

End Faulty.

(** * Properties *)

(** ** Strings and paths *)

Lemma append_empty_inv (a b : string) : a +:+ b = "" -> a = "" /\ b = "".
Proof. destruct a; simpl; [auto | discriminate]. Qed.

Lemma string_empty_true (s : string) : string_empty s = true <-> s = "".
Proof. destruct s; simpl; split; congruence. Qed.

Lemma string_empty_false (s : string) : string_empty s = false <-> s <> "".
Proof. destruct s; simpl; split; congruence. Qed.

Lemma first_choice_nonempty (E : Env) (w : World) : first_choice E w <> "".
Proof.
  unfold first_choice. intros H.
  apply append_empty_inv in H as [_ H]. discriminate.
Qed.

Lemma second_choice_nonempty (E : Env) (w : World) : second_choice E w <> "".
Proof.
  unfold second_choice. intros H.
  apply append_empty_inv in H as [_ H]. discriminate.
Qed.

(** ** The staging area *)

Section StagingArea.

Variable E : Env.

Lemma directory_exists_uid_count (p : string) (n : nat) (w : World) :
  directory_exists p (set_uid_count n w) = directory_exists p w.
Proof. reflexivity. Qed.

Lemma directory_exists_added (p : string) (l : list string) (w : World) :
  directory_exists p (set_directories (p :: l) w) = true.
Proof. unfold directory_exists. apply bool_decide_eq_true. simpl. left. Qed.

(** What [CreateEmptyTempDirectory] does when its first choice is free. *)
Lemma CreateEmptyTempDirectory_free (w : World) :
  directory_exists (first_directory E w) w = false ->
  CreateEmptyTempDirectory E w =
    if createDirectory_throws E (first_directory E w)
    then ("", set_uid_count (S (uid_count w)) w)
    else (first_choice E w,
          set_directories (first_directory E w :: directories w)
            (set_uid_count (S (uid_count w)) w)).
Proof.
  intros Hfree. unfold CreateEmptyTempDirectory, UIDGenerator_GetUID, File_createDirectory.
  fold (first_choice E w). fold (first_directory E w).
  rewrite directory_exists_uid_count, Hfree.
  destruct (createDirectory_throws E (first_directory E w)); reflexivity.
Qed.

(** ... and when it is taken. *)
Lemma CreateEmptyTempDirectory_taken (w : World) :
  directory_exists (first_directory E w) w = true ->
  CreateEmptyTempDirectory E w =
    let w2 := set_uid_count (2 + uid_count w) w in
    if directory_exists (second_directory E w) w then (second_choice E w, w2)
    else if createDirectory_throws E (second_directory E w) then ("", w2)
    else (second_choice E w,
          set_directories (second_directory E w :: directories w) w2).
Proof.
  intros Htaken. unfold CreateEmptyTempDirectory, UIDGenerator_GetUID, File_createDirectory.
  fold (first_choice E w). fold (first_directory E w).
  rewrite directory_exists_uid_count, Htaken. cbn [uid_count set_uid_count].
  fold (second_choice E w). fold (second_directory E w).
  change (directory_exists (second_directory E w) (set_uid_count _ _))
    with (directory_exists (second_directory E w) w).
  destruct (directory_exists (second_directory E w) w); [reflexivity |].
  destruct (createDirectory_throws E (second_directory E w)); reflexivity.
Qed.

(** C4, as the code has it: a first choice that exists makes the
    function draw exactly one more identifier and turn to the option
    directory.  It reports failure (the empty path) only when making the
    second directory throws; when the second directory exists as well it
    returns that path all the same and leaves the file system as it is,
    so the caller goes on with the directory that was already there. *)
Theorem CreateEmptyTempDirectory_falls_back_once (w : World) (r : string) (w' : World) :
  directory_exists (first_directory E w) w = true ->
  CreateEmptyTempDirectory E w = (r, w') ->
  uid_count w' = 2 + uid_count w /\
  (r = "" <->
     directory_exists (second_directory E w) w = false /\
     createDirectory_throws E (second_directory E w) = true) /\
  (r <> "" ->
     r = second_choice E w /\ directory_exists (second_directory E w) w' = true) /\
  (directory_exists (second_directory E w) w = true ->
     r = second_choice E w /\ directories w' = directories w).
Proof.
  intros Htaken Hrun. rewrite (CreateEmptyTempDirectory_taken w Htaken) in Hrun.
  pose proof (second_choice_nonempty E w) as Hne.
  cbv zeta in Hrun.
  destruct (directory_exists (second_directory E w) w) eqn:Hsecond.
  - injection Hrun as <- <-. split; [reflexivity |]. split; [| split].
    + split; [congruence | intros [? _]; discriminate].
    + intros _. split; [reflexivity |].
      rewrite directory_exists_uid_count. exact Hsecond.
    + intros _. split; reflexivity.
  - destruct (createDirectory_throws E (second_directory E w)) eqn:Hthrow;
      injection Hrun as <- <-; (split; [reflexivity |]); (split; [| split]).
    + split; [intros _; split; reflexivity | reflexivity].
    + congruence.
    + discriminate.
    + split; [congruence | intros [_ ?]; discriminate].
    + intros _. split; [reflexivity | apply directory_exists_added].
    + discriminate.
Qed.

Lemma CreateEmptyTempDirectory_storages (w : World) :
  storages (CreateEmptyTempDirectory E w).2 = storages w.
Proof.
  unfold CreateEmptyTempDirectory, UIDGenerator_GetUID, File_createDirectory.
  repeat (match goal with
          | |- context [if ?b then _ else _] => destruct b
          end; cbn); reflexivity.
Qed.

End StagingArea.

(** C4, the claim as written fails: both the path under the temporary
    root and the path under the option directory exist, and the function
    returns the second path, not the empty one. *)
Lemma CreateEmptyTempDirectory_reuses_existing :
  let w := Sample.world ["/tmp/SceneIOTempUID_0";
                         "/home/user/.mitk/SceneIOTempDirectoryUID_I0"] in
  directory_exists (first_directory Sample.calm w) w = true /\
  directory_exists (second_directory Sample.calm w) w = true /\
  CreateEmptyTempDirectory Sample.calm w =
    ("/home/user/.mitk/SceneIOTempDirectoryUID_I0", set_uid_count 2 w).
Proof. vm_compute. repeat split. Qed.

Lemma CreateEmptyTempDirectory_falls_back_once_witness :
  let w := Sample.world ["/tmp/SceneIOTempUID_0"] in
  uid_count (CreateEmptyTempDirectory Sample.calm w).2 = 2 + uid_count w /\
  (CreateEmptyTempDirectory Sample.calm w).1 = second_choice Sample.calm w.
Proof.
  intros w.
  destruct (CreateEmptyTempDirectory_falls_back_once Sample.calm w
              (CreateEmptyTempDirectory Sample.calm w).1
              (CreateEmptyTempDirectory Sample.calm w).2) as (H1 & _ & H3 & _).
  - vm_compute. reflexivity.
  - vm_compute. reflexivity.
  - split; [exact H1 |]. apply H3. vm_compute. discriminate.
Defined.

(** ** Loading *)

Section Loading.

Variable E : Env.

Lemma storage_at_store (l : nat) (ds : DataStorage) (w : World) :
  storage_at (store_storage l ds w) l = ds.
Proof. unfold storage_at, store_storage. cbn. by rewrite lookup_insert_eq. Qed.

Lemma dom_store_storage (l : nat) (ds : DataStorage) (w : World) :
  dom (storages (store_storage l ds w)) = {[l]} ∪ dom (storages w).
Proof. unfold store_storage. cbn. apply dom_insert_L. Qed.

Lemma filter_out_all (l : list DataNodePtr) :
  List.filter (fun n : DataNodePtr => bool_decide (n ∉ l)) l = [].
Proof.
  assert (H : forall k : list DataNodePtr, (forall x, x ∈ k -> x ∈ l) ->
              List.filter (fun n : DataNodePtr => bool_decide (n ∉ l)) k = []).
  { induction k as [| x k IH]; intros Hsub; [reflexivity |].
    cbn. rewrite bool_decide_eq_false_2.
    - apply IH. intros y Hy. apply Hsub. by right.
    - intros Hnot. apply Hnot, Hsub. by left. }
  apply H. auto.
Qed.

(** Removing all its nodes leaves a storage without nodes. *)
Lemma Remove_GetAll (ds : DataStorage) : GetAll (Remove (GetAll ds) ds) = [].
Proof. unfold Remove, GetAll. cbn. apply filter_out_all. Qed.

Lemma GetAll_Add_all (added : list (DataNodePtr * list DataNodePtr)) (ds : DataStorage) :
  GetAll (fold_left (fun d np => Add np.1 np.2 d) added ds) = GetAll ds ++ added.*1.
Proof.
  revert ds. induction added as [| [n ps] added IH]; intros ds; cbn.
  - by rewrite app_nil_r.
  - rewrite IH. unfold Add, GetAll. cbn. by rewrite <- app_assoc.
Qed.

(** [LoadSceneUnzipped] on a storage the caller supplies. *)
Lemma LoadSceneUnzipped_supplied (indexfilename : string) (l : nat)
    (clearStorageFirst : bool) (w : World) :
  let r := LoadSceneUnzipped E indexfilename (Some l) clearStorageFirst w in
  r.1 = Some l /\
  directories r.2 = directories w /\
  dom (storages w) ⊆ dom (storages r.2) /\
  GetAll (storage_at r.2 l) =
    GetAll (cleared E clearStorageFirst l w)
      ++ reloaded E indexfilename (cleared E clearStorageFirst l w).
Proof.
  unfold LoadSceneUnzipped, reloaded, cleared, reader_LoadScene, clear_storage.
  cbn [prepare_storage].
  destruct clearStorageFirst;
    [destruct (DataStorage_Remove E (storage_at w l)) |];
    (destruct (string_empty indexfilename);
     [| destruct (TiXml_LoadFile E indexfilename) as [doc |]]);
    cbn; rewrite ?storage_at_store.
  all: try (match goal with
            | |- context [SceneReader_LoadScene E ?d ?p ?x] =>
                destruct (SceneReader_LoadScene E d p x) as [ok added]
            end; cbn).
  all: rewrite ?storage_at_store, ?GetAll_Add_all, ?app_nil_r, ?dom_insert_L.
  all: repeat split; try reflexivity; set_solver.
Qed.

Lemma prepare_storage_spec (pStorage : option nat) (w : World) :
  let r := prepare_storage pStorage w in
  directories r.2 = directories w /\
  uid_count r.2 = uid_count w /\
  match pStorage with
  | Some l0 => r.1 = l0 /\ r.2 = w
  | None => (r.1 ∉ dom (storages w)) /\ (r.1 ∈ dom (storages r.2))
  end.
Proof.
  destruct pStorage as [l0 |]; cbn; repeat split.
  - apply is_fresh.
  - rewrite dom_insert_L. set_solver.
Qed.

Lemma delete_temp_directory_storages (this : SceneIO) (w : World) :
  storages (delete_temp_directory E this w) = storages w.
Proof.
  unfold delete_temp_directory, File_remove_recursive.
  repeat (match goal with
          | |- context [if ?b then _ else _] => destruct b
          end; cbn); reflexivity.
Qed.

(** [LoadScene] once the storage pointer is not null. *)
Lemma LoadScene_supplied (this : SceneIO) (filename : string) (l : nat)
    (clearStorageFirst : bool) (w : World) :
  let r := LoadScene E this filename (Some l) clearStorageFirst w in
  r.1.1 = Some l /\ dom (storages w) ⊆ dom (storages r.2).
Proof.
  unfold LoadScene. cbn [prepare_storage].
  destruct (string_empty filename); [cbn; split; [reflexivity | set_solver] |].
  destruct (negb (ifstream_good E filename)); [cbn; split; [reflexivity | set_solver] |].
  pose proof (CreateEmptyTempDirectory_storages E w) as Hst.
  destruct (CreateEmptyTempDirectory E w) as [dir w1]. cbn in Hst.
  destruct (string_empty _); [cbn; rewrite Hst; split; [reflexivity | set_solver] |].
  match goal with
  | |- context [LoadSceneUnzipped E ?i (Some l) ?c w1] =>
      pose proof (LoadSceneUnzipped_supplied i l c w1) as (Hp & _ & Hdom & _);
      destruct (LoadSceneUnzipped E i (Some l) c w1) as [p w2]
  end.
  cbn in *. rewrite delete_temp_directory_storages, <- Hst.
  split; [exact Hp | exact Hdom].
Qed.

Lemma LoadScene_prepare (this : SceneIO) (filename : string) (pStorage : option nat)
    (clearStorageFirst : bool) (w : World) :
  LoadScene E this filename pStorage clearStorageFirst w =
  LoadScene E this filename (Some (prepare_storage pStorage w).1) clearStorageFirst
    (prepare_storage pStorage w).2.
Proof. unfold LoadScene. destruct pStorage; reflexivity. Qed.

(** C8: [LoadScene] returns a pointer that is not null, whatever it is
    given and whatever fails on the way: the storage of the caller when
    there is one, else a storage allocated by the call, which the heap
    holds when the call returns. *)
Theorem LoadScene_never_null (this : SceneIO) (filename : string)
    (pStorage : option nat) (clearStorageFirst : bool) (w : World) :
  exists l : nat,
    (LoadScene E this filename pStorage clearStorageFirst w).1.1 = Some l /\
    match pStorage with
    | Some l0 => l = l0
    | None =>
        (l ∉ dom (storages w)) /\
        (l ∈ dom (storages (LoadScene E this filename pStorage clearStorageFirst w).2))
    end.
Proof.
  rewrite LoadScene_prepare.
  pose proof (prepare_storage_spec pStorage w) as (_ & _ & Hprep).
  pose proof (LoadScene_supplied this filename (prepare_storage pStorage w).1
                clearStorageFirst (prepare_storage pStorage w).2) as [Hret Hdom].
  cbv zeta in *. exists (prepare_storage pStorage w).1. split; [exact Hret |].
  destruct pStorage as [l0 |]; [apply Hprep |].
  destruct Hprep as [Hfresh Hin]. split; [exact Hfresh | apply Hdom, Hin].
Qed.

(** [LoadSceneUnzipped] does not return null either. *)
Lemma LoadSceneUnzipped_never_null (indexfilename : string)
    (pStorage : option nat) (clearStorageFirst : bool) (w : World) :
  exists l : nat,
    (LoadSceneUnzipped E indexfilename pStorage clearStorageFirst w).1 = Some l.
Proof.
  unfold LoadSceneUnzipped. destruct (prepare_storage pStorage w) as [l w0].
  exists l.
  destruct (string_empty indexfilename); [reflexivity |].
  destruct (TiXml_LoadFile E indexfilename); [| reflexivity].
  destruct (reader_LoadScene E _ _ _ _). reflexivity.
Qed.

Lemma decompressAllFiles_WorkingDirectory (filename : string) (this : SceneIO) :
  m_WorkingDirectory (decompressAllFiles E filename this) = m_WorkingDirectory this.
Proof.
  unfold decompressAllFiles.
  induction (decompress_errors E filename) as [| n IH]; [reflexivity |].
  cbn. exact IH.
Qed.

Lemma unzipped_WorkingDirectory (filename dir : string) (this : SceneIO) :
  m_WorkingDirectory (unzipped E filename dir this) = dir.
Proof.
  unfold unzipped. cbn. unfold Path_transcode.
  by rewrite decompressAllFiles_WorkingDirectory.
Qed.

(** [LoadScene] past its three early returns. *)
Lemma LoadScene_staged (this : SceneIO) (filename : string) (l : nat)
    (clearStorageFirst : bool) (w : World) :
  filename <> "" ->
  ifstream_good E filename = true ->
  (CreateEmptyTempDirectory E w).1 <> "" ->
  let dir := (CreateEmptyTempDirectory E w).1 in
  let w1 := (CreateEmptyTempDirectory E w).2 in
  let indexFile := dir +:+ GetDirectorySeparator +:+ "index.xml" in
  let r := LoadSceneUnzipped E indexFile (Some l) clearStorageFirst w1 in
  LoadScene E this filename (Some l) clearStorageFirst w =
    (r.1, unzipped E filename dir this,
     delete_temp_directory E (unzipped E filename dir this) r.2).
Proof.
  intros Hname Hgood Hdir. unfold LoadScene. cbn [prepare_storage].
  apply string_empty_false in Hname. rewrite Hname, Hgood. cbn [negb].
  destruct (CreateEmptyTempDirectory E w) as [dir w1]. cbn in Hdir |- *.
  apply string_empty_false in Hdir. rewrite Hdir.
  change (set_WorkingDirectory (Path_transcode _) _) with (unzipped E filename dir this).
  unfold Path_transcode. rewrite !decompressAllFiles_WorkingDirectory.
  cbn [m_WorkingDirectory set_UnzipErrors set_WorkingDirectory].
  match goal with
  | |- (let (_, _) := ?x in _) = _ => destruct x
  end.
  reflexivity.
Qed.

Lemma storage_at_same (w w' : World) (l : nat) :
  storages w' = storages w -> storage_at w' l = storage_at w l.
Proof. unfold storage_at. by intros ->. Qed.

(** The nodes of the storage after a [LoadScene] that got as far as the
    staging area: those the reconstruction started from, then those
    it added. *)
Lemma LoadScene_nodes (this : SceneIO) (filename : string) (l : nat)
    (clearStorageFirst : bool) (w : World) :
  filename <> "" ->
  ifstream_good E filename = true ->
  (CreateEmptyTempDirectory E w).1 <> "" ->
  let indexFile :=
    (CreateEmptyTempDirectory E w).1 +:+ GetDirectorySeparator +:+ "index.xml" in
  let r := LoadScene E this filename (Some l) clearStorageFirst w in
  r.1.1 = Some l /\
  GetAll (storage_at r.2 l) =
    GetAll (cleared E clearStorageFirst l w)
      ++ reloaded E indexFile (cleared E clearStorageFirst l w).
Proof.
  intros Hname Hgood Hdir. cbv zeta.
  rewrite (LoadScene_staged this filename l clearStorageFirst w Hname Hgood Hdir).
  cbv zeta. cbn [fst snd].
  pose proof (CreateEmptyTempDirectory_storages E w) as Hst.
  set (w1 := (CreateEmptyTempDirectory E w).2) in *.
  match goal with
  | |- context [LoadSceneUnzipped E ?i (Some l) ?c w1] =>
      pose proof (LoadSceneUnzipped_supplied i l c w1) as (Hp & _ & _ & Hnodes);
      set (r := LoadSceneUnzipped E i (Some l) c w1) in *
  end.
  split; [exact Hp |].
  rewrite (storage_at_same r.2 _ l (delete_temp_directory_storages _ _)).
  rewrite Hnodes. unfold cleared. by rewrite (storage_at_same w w1 l Hst).
Qed.

(** C9: with the flag set, a [LoadScene] whose manifest does not parse
    hands back the storage of the caller with none of the nodes it
    held: they went before the manifest was opened. *)
Theorem LoadScene_clears_before_parsing (this : SceneIO) (filename : string)
    (l : nat) (w : World) :
  filename <> "" ->
  ifstream_good E filename = true ->
  (CreateEmptyTempDirectory E w).1 <> "" ->
  DataStorage_Remove E (storage_at w l) = Removed ->
  TiXml_LoadFile E
    ((CreateEmptyTempDirectory E w).1 +:+ GetDirectorySeparator +:+ "index.xml") = None ->
  let r := LoadScene E this filename (Some l) true w in
  r.1.1 = Some l /\ GetAll (storage_at r.2 l) = [].
Proof.
  intros Hname Hgood Hdir Hremove Hparse.
  pose proof (LoadScene_nodes this filename l true w Hname Hgood Hdir) as [Hp Hnodes].
  cbv zeta in *. split; [exact Hp |]. rewrite Hnodes.
  unfold cleared, reloaded. rewrite Hremove, Hparse, Remove_GetAll.
  by destruct (string_empty _).
Qed.

(** C7: with the flag set the reconstruction starts from a storage
    without nodes, so that the storage ends up with the reloaded nodes
    only; without the flag it starts from the storage as it was, so that
    the nodes it held are all there, followed by the reloaded ones. *)
Theorem LoadScene_clear_first (this : SceneIO) (filename : string)
    (l : nat) (clearStorageFirst : bool) (w : World) :
  filename <> "" ->
  ifstream_good E filename = true ->
  (CreateEmptyTempDirectory E w).1 <> "" ->
  (clearStorageFirst = true -> DataStorage_Remove E (storage_at w l) = Removed) ->
  let indexFile :=
    (CreateEmptyTempDirectory E w).1 +:+ GetDirectorySeparator +:+ "index.xml" in
  let r := LoadScene E this filename (Some l) clearStorageFirst w in
  exists start : DataStorage,
    GetAll start = (if clearStorageFirst then [] else GetAll (storage_at w l)) /\
    GetAll (storage_at r.2 l) = GetAll start ++ reloaded E indexFile start.
Proof.
  intros Hname Hgood Hdir Hremove.
  pose proof (LoadScene_nodes this filename l clearStorageFirst w Hname Hgood Hdir)
    as [_ Hnodes].
  cbv zeta in *. exists (cleared E clearStorageFirst l w). split; [| exact Hnodes].
  unfold cleared. destruct clearStorageFirst; [| reflexivity].
  rewrite (Hremove eq_refl). apply Remove_GetAll.
Qed.


(** On its early returns (no file name, an archive that cannot be read,
    no staging directory) [LoadScene] hands the storage back untouched,
    with or without the flag. *)
Lemma LoadScene_early_return (this : SceneIO) (filename : string) (l : nat)
    (clearStorageFirst : bool) (w : World) :
  filename = "" \/ ifstream_good E filename = false
    \/ (CreateEmptyTempDirectory E w).1 = "" ->
  let r := LoadScene E this filename (Some l) clearStorageFirst w in
  r.1.1 = Some l /\ storage_at r.2 l = storage_at w l.
Proof.
  intros Hearly. cbv zeta. unfold LoadScene. cbn [prepare_storage].
  destruct (string_empty filename) eqn:Hname; [done |].
  destruct (ifstream_good E filename) eqn:Hgood; [| done]. cbn [negb].
  destruct Hearly as [-> | [? | Hdir]]; [done | done |].
  pose proof (CreateEmptyTempDirectory_storages E w) as Hst.
  destruct (CreateEmptyTempDirectory E w) as [dir w1]. cbn in Hdir, Hst |- *.
  subst dir. cbn. split; [reflexivity | by apply storage_at_same].
Qed.

Lemma directory_gone (p : string) (w : World) :
  directory_exists p
    (set_directories (List.filter (fun d => negb (String.eqb d p)) (directories w)) w)
  = false.
Proof.
  unfold directory_exists. apply bool_decide_eq_false. cbn.
  rewrite list_elem_of_In, filter_In. intros [_ H].
  by rewrite String.eqb_refl in H.
Qed.

Lemma delete_temp_directory_gone (this : SceneIO) (w : World) :
  Directory_remove_throws E (Poco_File (m_WorkingDirectory this)) = false ->
  directory_exists (Poco_File (m_WorkingDirectory this))
    (delete_temp_directory E this w) = false.
Proof.
  intros Hremove. unfold delete_temp_directory, File_remove_recursive.
  destruct (directory_exists (Poco_File (m_WorkingDirectory this)) w) eqn:Hthere.
  - rewrite Hremove. apply directory_gone.
  - exact Hthere.
Qed.

(** [LoadScene] tries to remove the staging directory on every path
    that made one; when the removal does not throw the directory is
    gone. *)
Lemma LoadScene_removes_staging (this : SceneIO) (filename : string) (l : nat)
    (clearStorageFirst : bool) (w : World) :
  filename <> "" ->
  ifstream_good E filename = true ->
  (CreateEmptyTempDirectory E w).1 <> "" ->
  let staging := Poco_File (CreateEmptyTempDirectory E w).1 in
  Directory_remove_throws E staging = false ->
  directory_exists staging (LoadScene E this filename (Some l) clearStorageFirst w).2
  = false.
Proof.
  intros Hname Hgood Hdir staging Hremove.
  rewrite (LoadScene_staged this filename l clearStorageFirst w Hname Hgood Hdir).
  cbv zeta. cbn [snd]. subst staging.
  rewrite <- (unzipped_WorkingDirectory filename (CreateEmptyTempDirectory E w).1 this)
    in Hremove |- * at 1.
  by apply delete_temp_directory_gone.
Qed.

End Loading.

(** ** Writing out the nodes *)

Section Writing.

Variable E : Env.
Variable this : SceneIO.

Lemma Value_SetAttribute (name value : string) (e : TiXmlNode) :
  Value (SetAttribute name value e) = Value e.
Proof. by destruct e. Qed.

Lemma SavePropertyList_element (pl : PropertyList) (hint : string) (fp : gset string) :
  (SavePropertyList E this pl hint fp).1 = (SavePropertyList E this pl hint ∅).1.
Proof.
  unfold SavePropertyList.
  by destruct (PropertyListSerializer_Serialize E pl hint _).
Qed.

Lemma SavePropertyList_Value (pl : PropertyList) (hint : string) (fp : gset string) :
  Value (SavePropertyList E this pl hint fp).1 = "properties".
Proof.
  unfold SavePropertyList.
  by destruct (PropertyListSerializer_Serialize E pl hint _).
Qed.

Lemma link_sources_shape (uids : list string) (t : string)
    (a : list (string * string)) (k : list TiXmlNode) :
  link_sources uids (TiXmlElement t a k) = TiXmlElement t a (k ++ (mk_source <$> uids)).
Proof.
  unfold link_sources. revert k.
  induction uids as [| u uids IH]; intros k; cbn.
  - by rewrite app_nil_r.
  - rewrite IH. by rewrite <- app_assoc.
Qed.

Lemma node_header_shape (uids : UIDState) (node : DataNodePtr) :
  node_header uids node =
    TiXmlElement "node"
      (match nodeUIDs uids !! node with Some u => [("UID", u)] | None => [] end)
      (mk_source <$> default [] (sourceUIDs uids !! node)).
Proof.
  unfold node_header.
  destruct (nodeUIDs uids !! node), (sourceUIDs uids !! node); cbn;
    by rewrite ?link_sources_shape.
Qed.

(** The [data] element of a payload: its name, its type, and a file
    reference exactly when [SaveBaseData] raised no error. *)
Lemma SaveBaseData_element (data : BaseData) (hint : string) :
  exists attrs,
    (SaveBaseData E this data hint).1 = TiXmlElement "data" attrs [] /\
    get_attr "type" attrs = Some (GetNameOfClass data) /\
    (get_attr "file" attrs = None <-> (SaveBaseData E this data hint).2 = true).
Proof.
  unfold SaveBaseData.
  destruct (first_serializer _) as [run |]; [destruct (run data hint _) |]; cbn;
    eexists; (split; [reflexivity |]); cbn; (split; [reflexivity |]);
    split; congruence.
Qed.

Lemma store_basedata_shape (node : DataNodePtr) (t : string)
    (a : list (string * string)) (k : list TiXmlNode)
    (fn : list DataNodePtr) (fp : gset string) :
  let hint := MakeCindentifier E (GetName (deref E node)) in
  let r := store_basedata E this node hint (TiXmlElement t a k, fn, fp) in
  r.1.2 = (if payload_error E this node then fn ++ [node] else fn) /\
  exists payload,
    r.1.1 = TiXmlElement t a (k ++ payload) /\
    (forall fn' fp',
       (store_basedata E this node hint (TiXmlElement t a k, fn', fp')).1.1 = r.1.1) /\
    match GetData (deref E node) with
    | None => payload = []
    | Some data =>
        exists attrs kids,
          payload = [TiXmlElement "data" attrs kids] /\
          get_attr "type" attrs = Some (GetNameOfClass data) /\
          (get_attr "file" attrs = None <-> payload_error E this node = true)
    end.
Proof.
  cbv zeta. unfold store_basedata, payload_error.
  destruct (GetData (deref E node)) as [data |].
  2: { split; [reflexivity |]. exists []. cbn. rewrite app_nil_r. repeat split. }
  destruct (SaveBaseData_element data (MakeCindentifier E (GetName (deref E node))))
    as (attrs & Hel & Htype & Hfile).
  destruct (SaveBaseData E this data _) as [dataElement error]. cbn in Hel, Hfile.
  subst dataElement.
  destruct (usable (bd_GetPropertyList data)) as [pl |].
  - set (hint := MakeCindentifier E (GetName (deref E node)) +:+ "-data").
    split; [destruct (SavePropertyList E this pl hint fp); by destruct error |].
    exists [TiXmlElement "data" attrs [(SavePropertyList E this pl hint ∅).1]].
    assert (Hstep : forall fn' fp',
              (let (dataElement', failedP') :=
                 let (baseDataPropertiesElement, fp1) :=
                   SavePropertyList E this pl hint fp' in
                 (LinkEndChild baseDataPropertiesElement (TiXmlElement "data" attrs []),
                  fp1) in
               (LinkEndChild dataElement' (TiXmlElement t a k),
                if error then fn' ++ [node] else fn', failedP')).1.1
              = TiXmlElement t a
                  (k ++ [TiXmlElement "data" attrs
                           [(SavePropertyList E this pl hint ∅).1]])).
    { intros fn' fp'.
      pose proof (SavePropertyList_element pl hint fp') as Hsame.
      destruct (SavePropertyList E this pl hint fp') as [el fp1].
      cbn in Hsame |- *. by rewrite Hsame. }
    split; [apply Hstep |]. split; [intros fn' fp'; by rewrite !Hstep |].
    eexists _, _. split; [reflexivity |]. split; [exact Htype | exact Hfile].
  - split; [by destruct error |].
    eexists. split; [reflexivity |]. split; [reflexivity |].
    eexists _, _. split; [reflexivity |]. split; [exact Htype | exact Hfile].
Qed.

Lemma store_renderwindow_lists_shape (node : DataNodePtr) (hint t : string)
    (a : list (string * string)) (k : list TiXmlNode) (fp : gset string) :
  exists extra,
    (store_renderwindow_lists E this node hint (TiXmlElement t a k, fp)).1
      = TiXmlElement t a (k ++ extra) /\
    Forall (fun c => Value c = "properties") extra /\
    forall fp',
      (store_renderwindow_lists E this node hint (TiXmlElement t a k, fp')).1
        = TiXmlElement t a (k ++ extra).
Proof.
  unfold store_renderwindow_lists.
  generalize (GetPropertyListNames (deref E node)) as names.
  intros names. revert k fp.
  induction names as [| name names IH]; intros k fp.
  - exists []. cbn. rewrite app_nil_r. auto.
  - cbn [fold_left].
    destruct (usable (GetPropertyListOf (deref E node) name)) as [pl |] eqn:Hpl.
    + pose proof (SavePropertyList_Value pl (hint +:+ "-" +:+ name) ∅) as Hval.
      set (el0 := (SavePropertyList E this pl (hint +:+ "-" +:+ name) ∅).1) in *.
      destruct (IH (k ++ [SetAttribute "renderwindow" name el0]) fp)
        as (extra & _ & Hall & Hany).
      exists (SetAttribute "renderwindow" name el0 :: extra).
      assert (Hstep : forall fp0,
                (fold_left
                   (fun (a0 : TiXmlNode * gset string) renderWindowName =>
                      let (nodeElement, failedP) := a0 in
                      match usable (GetPropertyListOf (deref E node) renderWindowName) with
                      | Some propertyList =>
                          let (renderWindowPropertiesElement, fp1) :=
                            SavePropertyList E this propertyList
                              (hint +:+ "-" +:+ renderWindowName) failedP in
                          (LinkEndChild
                             (SetAttribute "renderwindow" renderWindowName
                                renderWindowPropertiesElement) nodeElement, fp1)
                      | None => a0
                      end) names
                   (let (renderWindowPropertiesElement, fp1) :=
                      SavePropertyList E this pl (hint +:+ "-" +:+ name) fp0 in
                    (LinkEndChild
                       (SetAttribute "renderwindow" name renderWindowPropertiesElement)
                       (TiXmlElement t a k), fp1))).1
                = TiXmlElement t a (k ++ SetAttribute "renderwindow" name el0 :: extra)).
      { intros fp0.
        pose proof (SavePropertyList_element pl (hint +:+ "-" +:+ name) fp0) as Hsame.
        fold el0 in Hsame.
        destruct (SavePropertyList E this pl (hint +:+ "-" +:+ name) fp0) as [el fp1].
        cbn in Hsame. subst el. cbn [LinkEndChild].
        rewrite Hany. by rewrite <- app_assoc. }
      split; [apply Hstep |]. split; [| apply Hstep].
      constructor; [| exact Hall]. by rewrite Value_SetAttribute.
    + apply IH.
Qed.

Lemma store_node_list_shape (node : DataNodePtr) (hint t : string)
    (a : list (string * string)) (k : list TiXmlNode) (fp : gset string) :
  exists extra,
    (store_node_list E this node hint (TiXmlElement t a k, fp)).1
      = TiXmlElement t a (k ++ extra) /\
    Forall (fun c => Value c = "properties") extra /\
    forall fp',
      (store_node_list E this node hint (TiXmlElement t a k, fp')).1
        = TiXmlElement t a (k ++ extra).
Proof.
  unfold store_node_list.
  destruct (usable (GetPropertyList (deref E node))) as [pl |].
  - pose proof (SavePropertyList_Value pl (hint +:+ "-node") ∅) as Hval.
    exists [(SavePropertyList E this pl (hint +:+ "-node") ∅).1].
    assert (Hstep : forall fp0,
              (let (propertiesElement, fp1) :=
                 SavePropertyList E this pl (hint +:+ "-node") fp0 in
               (LinkEndChild propertiesElement (TiXmlElement t a k), fp1)).1
              = TiXmlElement t a (k ++ [(SavePropertyList E this pl (hint +:+ "-node") ∅).1])).
    { intros fp0.
      pose proof (SavePropertyList_element pl (hint +:+ "-node") fp0) as Hsame.
      destruct (SavePropertyList E this pl (hint +:+ "-node") fp0) as [el fp1].
      cbn in Hsame |- *. by rewrite Hsame. }
    split; [apply Hstep |]. split; [| apply Hstep].
    constructor; [exact Hval | constructor].
  - exists []. cbn. rewrite app_nil_r. auto.
Qed.

(** The [node] element of a node: its identifier, its dependencies,
    its payload and its property lists, in that order. *)
Lemma node_element_shape (uids : UIDState) (node : DataNodePtr) :
  exists payload props,
    node_element E this uids node =
      TiXmlElement "node"
        (match nodeUIDs uids !! node with Some u => [("UID", u)] | None => [] end)
        ((mk_source <$> default [] (sourceUIDs uids !! node)) ++ payload ++ props) /\
    Forall (fun c => Value c = "properties") props /\
    match GetData (deref E node) with
    | None => payload = []
    | Some data =>
        exists attrs kids,
          payload = [TiXmlElement "data" attrs kids] /\
          get_attr "type" attrs = Some (GetNameOfClass data) /\
          (get_attr "file" attrs = None <-> payload_error E this node = true)
    end.
Proof.
  unfold node_element, build_node. rewrite node_header_shape.
  set (hint := MakeCindentifier E (GetName (deref E node))).
  set (A := match nodeUIDs uids !! node with Some u => [("UID", u)] | None => [] end).
  set (K := mk_source <$> default [] (sourceUIDs uids !! node)).
  pose proof (store_basedata_shape node "node" A K [] ∅)
    as (_ & payload & Hel & _ & Hpayload).
  cbv zeta in Hel. fold hint in Hel.
  destruct (store_basedata E this node hint (TiXmlElement "node" A K, [], ∅))
    as [[el1 fn1] fp1]. cbn in Hel. subst el1.
  destruct (store_renderwindow_lists_shape node hint "node" A (K ++ payload) fp1)
    as (extra1 & Hrw & Hall1 & _).
  destruct (store_renderwindow_lists E this node hint (_, fp1)) as [el2 fp2].
  cbn in Hrw. subst el2.
  destruct (store_node_list_shape node hint "node" A ((K ++ payload) ++ extra1) fp2)
    as (extra2 & Hnl & Hall2 & _).
  destruct (store_node_list E this node hint (_, fp2)) as [el3 fp3].
  cbn in Hnl |- *. subst el3.
  exists payload, (extra1 ++ extra2). split; [| split].
  - by rewrite <- !app_assoc.
  - apply Forall_app. by split.
  - exact Hpayload.
Qed.

Lemma build_node_spec (uids : UIDState) (node : DataNodePtr)
    (fn : list DataNodePtr) (fp : gset string) :
  (build_node E this uids node fn fp).1.1 = node_element E this uids node /\
  (build_node E this uids node fn fp).1.2
    = (if payload_error E this node then fn ++ [node] else fn).
Proof.
  unfold node_element, build_node. rewrite node_header_shape.
  set (hint := MakeCindentifier E (GetName (deref E node))).
  set (A := match nodeUIDs uids !! node with Some u => [("UID", u)] | None => [] end).
  set (K := mk_source <$> default [] (sourceUIDs uids !! node)).
  pose proof (store_basedata_shape node "node" A K fn fp)
    as (Hfn & payload & Hel & Hany & _).
  cbv zeta in Hfn, Hel, Hany. fold hint in Hfn, Hel, Hany.
  specialize (Hany [] ∅). rewrite Hel in Hany.
  destruct (store_basedata E this node hint (TiXmlElement "node" A K, fn, fp))
    as [[el1 fn1] fp1].
  destruct (store_basedata E this node hint (TiXmlElement "node" A K, [], ∅))
    as [[el1' fn1'] fp1'].
  cbn in Hfn, Hel, Hany. subst el1 el1' fn1.
  destruct (store_renderwindow_lists_shape node hint "node" A (K ++ payload) fp1)
    as (extra1 & Hrw & _ & Hrw').
  specialize (Hrw' fp1').
  destruct (store_renderwindow_lists E this node hint (_, fp1)) as [el2 fp2].
  destruct (store_renderwindow_lists E this node hint (_, fp1')) as [el2' fp2'].
  cbn in Hrw, Hrw'. subst el2 el2'.
  destruct (store_node_list_shape node hint "node" A ((K ++ payload) ++ extra1) fp2)
    as (extra2 & Hnl & _ & Hnl').
  specialize (Hnl' fp2').
  destruct (store_node_list E this node hint (_, fp2)) as [el3 fp3].
  destruct (store_node_list E this node hint (_, fp2')) as [el3' fp3'].
  cbn in Hnl, Hnl' |- *. subst el3 el3'. by split.
Qed.

(** The second loop adds one [node] element per non-null entry, in
    the order of the entries, and one failed node per payload error. *)
Lemma write_nodes_spec (uids : UIDState) (entries : list (option DataNodePtr))
    (ws : WriteState) :
  document (write_nodes E this uids entries ws)
    = document ws ++ (node_element E this uids <$> non_null entries) /\
  failedNodes (write_nodes E this uids entries ws)
    = failedNodes ws ++ List.filter (payload_error E this) (non_null entries).
Proof.
  unfold write_nodes. revert ws.
  induction entries as [| entry entries IH]; intros ws.
  - cbn. by rewrite !app_nil_r.
  - cbn [fold_left]. destruct (IH (write_node E this uids ws entry)) as [IHd IHf].
    rewrite IHd, IHf. destruct entry as [node |]; [| by cbn].
    unfold write_node.
    destruct (build_node_spec uids node (failedNodes ws) (failedProperties ws))
      as [Hel Hfn].
    destruct (build_node E this uids node _ _) as [[el fn] fp].
    cbn in Hel, Hfn |- *. subst el fn.
    destruct (payload_error E this node); by rewrite <- ?app_assoc.
Qed.

Lemma node_element_Value (uids : UIDState) (node : DataNodePtr) :
  Value (node_element E this uids node) = "node".
Proof. by destruct (node_element_shape uids node) as (? & ? & -> & _). Qed.

Lemma node_element_UID (uids : UIDState) (node : DataNodePtr) :
  Attribute "UID" (node_element E this uids node) = nodeUIDs uids !! node.
Proof.
  destruct (node_element_shape uids node) as (? & ? & -> & _).
  by destruct (nodeUIDs uids !! node).
Qed.

Lemma filter_none {A : Type} (f : A -> bool) (l : list A) :
  Forall (fun x => f x = false) l -> List.filter f l = [].
Proof.
  induction 1 as [| x l Hx _ IH]; [reflexivity |]. cbn. by rewrite Hx.
Qed.

Lemma filter_all {A : Type} (f : A -> bool) (l : list A) :
  Forall (fun x => f x = true) l -> List.filter f l = l.
Proof.
  induction 1 as [| x l Hx _ IH]; [reflexivity |]. cbn. by rewrite Hx, IH.
Qed.

Lemma others_are_not (tag other : string) (l : list TiXmlNode) :
  tag <> other ->
  Forall (fun c => Value c = other) l ->
  List.filter (fun c => String.eqb (Value c) tag) l = [].
Proof.
  intros Htag Hall. apply filter_none.
  eapply Forall_impl; [exact Hall |]. cbn. intros c ->.
  apply String.eqb_neq. congruence.
Qed.

Lemma properties_are_not (tag : string) (props : list TiXmlNode) :
  tag <> "properties" ->
  Forall (fun c => Value c = "properties") props ->
  List.filter (fun c => String.eqb (Value c) tag) props = [].
Proof.
  intros Htag Hall. apply filter_none.
  eapply Forall_impl; [exact Hall |]. cbn. intros c ->.
  apply String.eqb_neq. congruence.
Qed.

(** The dependencies of a [node] element are the identifiers that the
    first loop recorded for the node. *)
Lemma node_element_sources (uids : UIDState) (node : DataNodePtr) :
  source_refs (node_element E this uids node)
    = Some <$> default [] (sourceUIDs uids !! node).
Proof.
  destruct (node_element_shape uids node) as (payload & props & -> & Hprops & Hpayload).
  unfold source_refs, ChildElements. cbn [Children].
  rewrite !List.filter_app.
  rewrite (properties_are_not "source" props); [| discriminate | exact Hprops].
  assert (Hp : List.filter (fun c => String.eqb (Value c) "source") payload = []).
  { destruct (GetData (deref E node)).
    - by destruct Hpayload as (? & ? & -> & _).
    - by subst payload. }
  rewrite Hp, !app_nil_r.
  rewrite filter_all.
  - rewrite <- list_fmap_compose. reflexivity.
  - apply Forall_fmap, Forall_true. reflexivity.
Qed.

End Writing.

(** ** Finding out about dependencies *)

Section Dependencies.

Variable E : Env.
Variable ds : DataStorage.
Variable nodes : list (option DataNodePtr).
Variable w0 : World.

Lemma object_uid_nonempty (k : nat) : string_empty (object_uid E k) = false.
Proof. reflexivity. Qed.

Lemma object_uid_inj (i j : nat) :
  (forall i j, uid_tail E i = uid_tail E j -> i = j) ->
  object_uid E i = object_uid E j -> i = j.
Proof. intros Hgen H. apply Hgen. by injection H. Qed.

Lemma initial_invariant : uid_invariant E nodes w0 (initial_uids w0).
Proof.
  split; cbn.
  - intros p u H. by rewrite lookup_empty in H.
  - rewrite map_size_empty. lia.
  - reflexivity.
Qed.

(** An identifier, once in the map, is not drawn again: [assign_uid]
    leaves a node that has one alone, and gives one to a node that has
    none. *)
Lemma assign_uid_spec (p : DataNodePtr) (st : UIDState) :
  uid_invariant E nodes w0 st -> Some p ∈ nodes ->
  uid_invariant E nodes w0 (assign_uid E p st) /\
  nodeUIDs st ⊆ nodeUIDs (assign_uid E p st) /\
  is_Some (nodeUIDs (assign_uid E p st) !! p) /\
  sourceUIDs (assign_uid E p st) = sourceUIDs st.
Proof.
  intros HI Hp. unfold assign_uid, uid_at.
  destruct (nodeUIDs st !! p) as [u |] eqn:Hlook.
  - destruct (inv_drawn _ _ _ _ HI p u Hlook) as (k & _ & -> & _).
    change (default "" (Some (object_uid E k))) with (object_uid E k).
    rewrite object_uid_nonempty. rewrite Hlook. repeat split; eauto; apply HI.
  - change (default "" None) with "".
    cbn [string_empty UIDGenerator_GetUID nodeUIDs sourceUIDs uid_world].
    split; [split |]; cbn.
    + intros q u Hq. apply lookup_insert_Some in Hq as [[<- <-] | [_ Hq]].
      * exists (uid_count (uid_world st)). repeat split; try lia; try done.
        rewrite (inv_count _ _ _ _ HI). lia.
      * destruct (inv_drawn _ _ _ _ HI q u Hq) as (k & Hk & Hu & Hin).
        exists k. repeat split; try lia; done.
    + rewrite map_size_insert_None by done. rewrite (inv_count _ _ _ _ HI). lia.
    + apply (inv_world _ _ _ _ HI).
    + split; [by apply insert_subseteq |].
      split; [| reflexivity]. rewrite lookup_insert_eq. eauto.
Qed.

Lemma assign_uid_distinct (p : DataNodePtr) (st : UIDState) :
  (forall i j, uid_tail E i = uid_tail E j -> i = j) ->
  uid_invariant E nodes w0 st ->
  uids_distinct (nodeUIDs st) ->
  uids_distinct (nodeUIDs (assign_uid E p st)).
Proof.
  intros Hgen HI Hd. unfold assign_uid.
  destruct (string_empty _); [| exact Hd].
  cbn. intros a b u Ha Hb.
  apply lookup_insert_Some in Ha as [[<- <-] | [Hna Ha]];
    apply lookup_insert_Some in Hb as [[<- Hb] | [Hnb Hb]]; try done.
  - destruct (inv_drawn _ _ _ _ HI b _ Hb) as (k & Hk & Hu & _).
    apply (object_uid_inj _ _ Hgen) in Hu. lia.
  - subst u. destruct (inv_drawn _ _ _ _ HI a _ Ha) as (k & Hk & Hu & _).
    apply (object_uid_inj _ _ Hgen) in Hu. lia.
  - by apply (Hd a b u).
Qed.

Lemma in_scene_spec (p : DataNodePtr) : in_scene nodes p = true <-> Some p ∈ nodes.
Proof. unfold in_scene. apply bool_decide_eq_true. Qed.

Lemma visit_source_spec (node : DataNodePtr) (st : UIDState) (source : DataNodePtr) :
  uid_invariant E nodes w0 st ->
  let st' := visit_source E nodes node st source in
  uid_invariant E nodes w0 st' /\
  nodeUIDs st ⊆ nodeUIDs st' /\
  (in_scene nodes source = true -> is_Some (nodeUIDs st' !! source)) /\
  sourceUIDs st' =
    (if in_scene nodes source
     then <[node := default [] (sourceUIDs st !! node)
                      ++ [uid_at (nodeUIDs st') source]]> (sourceUIDs st)
     else sourceUIDs st).
Proof.
  intros HI. cbv zeta. unfold visit_source.
  destruct (in_scene nodes source) eqn:Hin; [| repeat split; try done; apply HI].
  apply in_scene_spec in Hin.
  destruct (assign_uid_spec source st HI Hin) as (HI' & Hsub & Hsome & Hsrc).
  unfold push_source. cbn. rewrite Hsrc.
  split; [| done]. split; cbn; apply HI'.
Qed.

Lemma uids_distinct_visit_source (node : DataNodePtr) (st : UIDState)
    (source : DataNodePtr) :
  (forall i j, uid_tail E i = uid_tail E j -> i = j) ->
  uid_invariant E nodes w0 st ->
  uids_distinct (nodeUIDs st) ->
  uids_distinct (nodeUIDs (visit_source E nodes node st source)).
Proof.
  intros Hgen HI Hd. unfold visit_source.
  destruct (in_scene nodes source); [| exact Hd].
  cbn. by apply assign_uid_distinct.
Qed.

Lemma uid_at_weaken (m M : gmap DataNodePtr string) (p : DataNodePtr) :
  m ⊆ M -> is_Some (m !! p) -> uid_at m p = uid_at M p.
Proof.
  intros Hsub [u Hu]. unfold uid_at.
  by rewrite Hu, (lookup_weaken _ _ _ _ Hu Hsub).
Qed.

Lemma is_Some_weaken (m M : gmap DataNodePtr string) (p : DataNodePtr) :
  m ⊆ M -> is_Some (m !! p) -> is_Some (M !! p).
Proof. intros Hsub [u Hu]. exists u. by apply (lookup_weaken _ _ _ _ Hu Hsub). Qed.

(** The loop over the sources of [node]: the sources that are saved get
    an identifier, and [node] gets their identifiers, in order, as its
    dependencies. *)
Lemma visit_sources_spec (node : DataNodePtr) (srcs : list DataNodePtr) (st : UIDState) :
  uid_invariant E nodes w0 st ->
  let st' := fold_left (visit_source E nodes node) srcs st in
  uid_invariant E nodes w0 st' /\
  nodeUIDs st ⊆ nodeUIDs st' /\
  (forall M, nodeUIDs st' ⊆ M -> forall n,
     default [] (sourceUIDs st' !! n) =
       default [] (sourceUIDs st !! n)
         ++ (if bool_decide (n = node)
             then uid_at M <$> List.filter (in_scene nodes) srcs else [])).
Proof.
  revert st. induction srcs as [| s srcs IH]; intros st HI; cbv zeta.
  - cbn. split; [done |]. split; [done |].
    intros M _ n. destruct (bool_decide _); by rewrite app_nil_r.
  - cbn [fold_left].
    destruct (visit_source_spec node st s HI) as (HI1 & Hsub1 & Hsome1 & Hsrc1).
    destruct (IH _ HI1) as (HI' & Hsub' & Hsrc').
    split; [exact HI' |]. split; [by etrans |].
    intros M HM n. rewrite (Hsrc' M HM n), Hsrc1. cbn [List.filter].
    destruct (in_scene nodes s) eqn:Hin.
    + specialize (Hsome1 eq_refl).
      rewrite (uid_at_weaken _ M s (transitivity Hsub' HM) Hsome1).
      destruct (decide (n = node)) as [-> | Hne].
      * rewrite bool_decide_eq_true_2 by done.
        rewrite lookup_insert_eq. cbn. by rewrite <- app_assoc.
      * rewrite bool_decide_eq_false_2 by done.
        rewrite lookup_insert_ne by done. reflexivity.
    + reflexivity.
Qed.

Lemma visit_sources_distinct (node : DataNodePtr) (srcs : list DataNodePtr)
    (st : UIDState) :
  (forall i j, uid_tail E i = uid_tail E j -> i = j) ->
  uid_invariant E nodes w0 st ->
  uids_distinct (nodeUIDs st) ->
  uids_distinct (nodeUIDs (fold_left (visit_source E nodes node) srcs st)).
Proof.
  intros Hgen. revert st. induction srcs as [| s srcs IH]; intros st HI Hd; [exact Hd |].
  cbn [fold_left]. apply IH.
  - apply (visit_source_spec node st s HI).
  - by apply uids_distinct_visit_source.
Qed.

(** One round of the first loop. *)
Lemma visit_node_spec (st : UIDState) (entry : option DataNodePtr) :
  uid_invariant E nodes w0 st -> entry ∈ nodes ->
  let st' := visit_node E ds nodes st entry in
  uid_invariant E nodes w0 st' /\
  nodeUIDs st ⊆ nodeUIDs st' /\
  (forall p, entry = Some p -> is_Some (nodeUIDs st' !! p)) /\
  (forall M, nodeUIDs st' ⊆ M -> forall n,
     default [] (sourceUIDs st' !! n) =
       default [] (sourceUIDs st !! n)
         ++ (if bool_decide (entry = Some n)
             then uid_at M <$> saved_sources ds nodes n else [])).
Proof.
  intros HI Hentry. cbv zeta. destruct entry as [node |]; cbn [visit_node].
  - destruct (visit_sources_spec node (GetSources ds node) st HI) as (HI1 & Hsub1 & Hsrc1).
    destruct (assign_uid_spec node _ HI1 Hentry) as (HI' & Hsub' & Hsome & Hsame).
    split; [exact HI' |]. split; [by etrans |].
    split; [by intros p [= <-] |].
    intros M HM n. rewrite Hsame, (Hsrc1 M (transitivity Hsub' HM) n).
    unfold saved_sources.
    destruct (decide (n = node)) as [-> | Hne].
    + by rewrite !bool_decide_eq_true_2.
    + rewrite !bool_decide_eq_false_2; [done | congruence | done].
  - split; [done |]. split; [done |]. split; [done |]. intros M _ n.
    rewrite bool_decide_eq_false_2 by done. by rewrite app_nil_r.
Qed.

Lemma visit_node_distinct (st : UIDState) (entry : option DataNodePtr) :
  (forall i j, uid_tail E i = uid_tail E j -> i = j) ->
  uid_invariant E nodes w0 st ->
  uids_distinct (nodeUIDs st) ->
  uids_distinct (nodeUIDs (visit_node E ds nodes st entry)).
Proof.
  intros Hgen HI Hd. destruct entry as [node |]; [| exact Hd]. cbn [visit_node].
  apply assign_uid_distinct; [exact Hgen | |].
  - apply (visit_sources_spec node (GetSources ds node) st HI).
  - by apply visit_sources_distinct.
Qed.

Lemma occurrences_cons (n : DataNodePtr) (e : option DataNodePtr)
    (entries : list (option DataNodePtr)) :
  occurrences n (e :: entries)
    = (if bool_decide (e = Some n) then 1 else 0) + occurrences n entries.
Proof. unfold occurrences. cbn. by destruct (bool_decide _). Qed.

(** The first loop over a part [entries] of the node set. *)
Lemma visit_nodes_spec (entries : list (option DataNodePtr)) (st : UIDState) :
  uid_invariant E nodes w0 st -> (forall e, e ∈ entries -> e ∈ nodes) ->
  let st' := visit_nodes E ds nodes entries st in
  uid_invariant E nodes w0 st' /\
  nodeUIDs st ⊆ nodeUIDs st' /\
  (forall p, Some p ∈ entries -> is_Some (nodeUIDs st' !! p)) /\
  (forall M, nodeUIDs st' ⊆ M -> forall n,
     default [] (sourceUIDs st' !! n) =
       default [] (sourceUIDs st !! n)
         ++ mjoin (replicate (occurrences n entries)
                     (uid_at M <$> saved_sources ds nodes n))).
Proof.
  unfold visit_nodes. revert st.
  induction entries as [| e entries IH]; intros st HI Hsub; cbv zeta.
  - cbn. split; [done |]. split; [done |]. split.
    + intros p Hp. by apply elem_of_nil in Hp.
    + intros M _ n. by rewrite app_nil_r.
  - cbn [fold_left].
    destruct (visit_node_spec st e HI) as (HI1 & Hsub1 & Hsome1 & Hsrc1).
    { apply Hsub. by left. }
    destruct (IH _ HI1) as (HI' & Hsub' & Hsome' & Hsrc').
    { intros x Hx. apply Hsub. by right. }
    split; [exact HI' |]. split; [by etrans |]. split.
    + intros p Hp. apply elem_of_cons in Hp as [<- | Hp].
      * eapply is_Some_weaken; [exact Hsub' | by apply Hsome1].
      * by apply Hsome'.
    + intros M HM n.
      rewrite (Hsrc' M HM n), (Hsrc1 M (transitivity Hsub' HM) n).
      rewrite occurrences_cons.
      destruct (bool_decide (e = Some n)); cbn; by rewrite <- ?app_assoc, ?app_nil_r.
Qed.

Lemma visit_nodes_distinct (entries : list (option DataNodePtr)) (st : UIDState) :
  (forall i j, uid_tail E i = uid_tail E j -> i = j) ->
  (forall e, e ∈ entries -> e ∈ nodes) ->
  uid_invariant E nodes w0 st ->
  uids_distinct (nodeUIDs st) ->
  uids_distinct (nodeUIDs (visit_nodes E ds nodes entries st)).
Proof.
  intros Hgen. unfold visit_nodes. revert st.
  induction entries as [| e entries IH]; intros st Hsub HI Hd; [exact Hd |].
  cbn [fold_left]. apply IH.
  - intros x Hx. apply Hsub. by right.
  - apply (visit_node_spec st e HI). apply Hsub. by left.
  - by apply visit_node_distinct.
Qed.

End Dependencies.

(** ** Identifiers and dependencies in the manifest *)

Section Manifest.

Variable E : Env.
Variable this : SceneIO.
Variable ds : DataStorage.
Variable nodes : list (option DataNodePtr).
Variable w : World.

Lemma elem_of_non_null (p : DataNodePtr) (entries : list (option DataNodePtr)) :
  p ∈ non_null entries <-> Some p ∈ entries.
Proof.
  unfold non_null. rewrite list_elem_of_omap. split.
  - intros (x & Hx & Hid). cbn in Hid. by subst x.
  - intros Hp. by exists (Some p).
Qed.

Lemma elem_of_filter_bool {A : Type} (f : A -> bool) (l : list A) (x : A) :
  x ∈ List.filter f l <-> x ∈ l /\ f x = true.
Proof. by rewrite !list_elem_of_In, filter_In. Qed.

Lemma elem_of_saved_sources (s node : DataNodePtr) :
  s ∈ saved_sources ds nodes node <-> s ∈ GetSources ds node /\ Some s ∈ nodes.
Proof.
  unfold saved_sources. rewrite elem_of_filter_bool.
  unfold in_scene. by rewrite bool_decide_eq_true.
Qed.

Lemma elem_of_repeated {A : Type} (x : A) (k : nat) (l : list A) :
  x ∈ mjoin (replicate k l) <-> k <> 0 /\ x ∈ l.
Proof.
  induction k as [| k IH]; cbn.
  - split; [intros H; by apply elem_of_nil in H | by intros [? _]].
  - rewrite elem_of_app, IH. split; [intros [? | [_ ?]]; by split | intros [_ ?]; by left].
Qed.

Lemma fmap_repeated {A B : Type} (f : A -> B) (k : nat) (l : list A) :
  f <$> mjoin (replicate k l) = mjoin (replicate k (f <$> l)).
Proof.
  induction k as [| k IH]; [reflexivity |].
  change (f <$> (l ++ mjoin (replicate k l)) = (f <$> l) ++ mjoin (replicate k (f <$> l))).
  by rewrite fmap_app, IH.
Qed.

Lemma occurrences_elem_of (node : DataNodePtr) (entries : list (option DataNodePtr)) :
  Some node ∈ entries -> occurrences node entries <> 0.
Proof.
  intros Hin. unfold occurrences.
  assert (Hf : Some node ∈ List.filter (fun e => bool_decide (e = Some node)) entries).
  { apply elem_of_filter_bool. split; [exact Hin | by apply bool_decide_eq_true]. }
  destruct (List.filter _ entries); [by apply elem_of_nil in Hf | done].
Qed.

(** The first loop as a whole: every node of the set has an identifier,
    and the dependencies recorded for a node are the identifiers of its
    saved sources, once per occurrence of the node in the set. *)
Lemma find_dependencies_spec :
  let uids := find_dependencies E ds nodes w in
  uid_invariant E nodes w uids /\
  (forall p, Some p ∈ nodes -> is_Some (nodeUIDs uids !! p)) /\
  (forall n,
     default [] (sourceUIDs uids !! n) =
       mjoin (replicate (occurrences n nodes)
                (uid_at (nodeUIDs uids) <$> saved_sources ds nodes n))).
Proof.
  cbv zeta. unfold find_dependencies. fold (initial_uids w).
  destruct (visit_nodes_spec E ds nodes w nodes (initial_uids w))
    as (HI & _ & Hsome & Hsrc); [apply initial_invariant | done |].
  split; [exact HI |]. split; [exact Hsome |].
  intros n. by rewrite (Hsrc _ (reflexivity _) n).
Qed.

Lemma document_start_entries : node_entries (document_start E) = [].
Proof. reflexivity. Qed.

(** The [node] elements of the manifest: one per non-null entry of the
    node set, in the order of the set. *)
Lemma manifest_entries :
  node_entries (manifest E this ds nodes w)
    = node_element E this (find_dependencies E ds nodes w) <$> non_null nodes.
Proof.
  unfold manifest.
  destruct (write_nodes_spec E this (find_dependencies E ds nodes w) nodes (start_state E))
    as [-> _].
  unfold node_entries. rewrite List.filter_app. cbn [document start_state].
  fold (node_entries (document_start E)). rewrite document_start_entries. cbn [app].
  apply filter_all, Forall_fmap, Forall_true. intros p. cbn.
  by rewrite node_element_Value.
Qed.

Lemma uid_at_lookup (m : gmap DataNodePtr string) (p : DataNodePtr) :
  is_Some (m !! p) -> m !! p = Some (uid_at m p).
Proof. intros [u Hu]. unfold uid_at. by rewrite Hu. Qed.

(** The dependency references of the entry of a saved node. *)
Lemma source_refs_spec (node : DataNodePtr) :
  let uids := find_dependencies E ds nodes w in
  source_refs (node_element E this uids node) =
    mjoin (replicate (occurrences node nodes)
             ((fun s => nodeUIDs uids !! s) <$> saved_sources ds nodes node)).
Proof.
  cbv zeta. destruct find_dependencies_spec as (_ & Hsome & Hsrc).
  rewrite node_element_sources, (Hsrc node), fmap_repeated. f_equal. f_equal.
  rewrite <- list_fmap_compose. apply list_fmap_ext.
  intros i s Hs. cbn. symmetry. apply uid_at_lookup, Hsome.
  by apply list_elem_of_lookup_2, elem_of_saved_sources in Hs as [_ ?].
Qed.

(** The nodes that have an identifier after the first loop are the
    nodes of the set. *)
Lemma find_dependencies_dom :
  dom (nodeUIDs (find_dependencies E ds nodes w)) = list_to_set (non_null nodes).
Proof.
  destruct find_dependencies_spec as (HI & Hsome & _).
  apply set_eq. intros p. rewrite elem_of_dom, elem_of_list_to_set, elem_of_non_null.
  split; [| apply Hsome].
  intros [u Hu]. by destruct (inv_drawn _ _ _ _ HI p u Hu) as (_ & _ & _ & ?).
Qed.

Lemma find_dependencies_distinct :
  (forall i j, uid_tail E i = uid_tail E j -> i = j) ->
  uids_distinct (nodeUIDs (find_dependencies E ds nodes w)).
Proof.
  intros Hgen. unfold find_dependencies. fold (initial_uids w).
  apply (visit_nodes_distinct E ds nodes w);
    [exact Hgen | done | apply initial_invariant |].
  intros p q u Hp. cbn in Hp. by rewrite lookup_empty in Hp.
Qed.

(** The entries of the manifest carry the identifiers of their nodes. *)
Lemma manifest_identifiers :
  Attribute "UID" <$> node_entries (manifest E this ds nodes w)
    = (fun p => nodeUIDs (find_dependencies E ds nodes w) !! p) <$> non_null nodes.
Proof.
  rewrite manifest_entries, <- list_fmap_compose. apply list_fmap_ext.
  intros i p _. cbn. apply node_element_UID.
Qed.

(** C5: the first loop draws one identifier for each node of the set
    and none for any other node, so as many as the set has nodes; no two
    nodes share one; an identifier that is in the map after some of the
    entries is still the identifier of its node at the end; the entry of a
    node carries the identifier of the node; and every dependency
    reference of the manifest is the identifier of an entry of the same
    manifest. *)
Theorem identifiers_one_per_node :
  (forall i j, uid_tail E i = uid_tail E j -> i = j) ->
  let uids := find_dependencies E ds nodes w in
  let doc := manifest E this ds nodes w in
  dom (nodeUIDs uids) = list_to_set (non_null nodes) /\
  uid_count (uid_world uids)
    = uid_count w + size (list_to_set (non_null nodes) : gset DataNodePtr) /\
  uids_distinct (nodeUIDs uids) /\
  (forall visited rest, nodes = visited ++ rest ->
     nodeUIDs (visit_nodes E ds nodes visited (initial_uids w)) ⊆ nodeUIDs uids) /\
  Attribute "UID" <$> node_entries doc = (fun p => nodeUIDs uids !! p) <$> non_null nodes /\
  (forall e u, e ∈ node_entries doc -> Some u ∈ source_refs e ->
     exists e', e' ∈ node_entries doc /\ Attribute "UID" e' = Some u).
Proof.
  intros Hgen. cbv zeta.
  destruct find_dependencies_spec as (HI & Hsome & Hsrc).
  pose proof find_dependencies_dom as Hdom.
  split; [exact Hdom |]. split; [| split; [| split; [| split]]].
  - rewrite <- Hdom, size_dom. apply (inv_count _ _ _ _ HI).
  - by apply find_dependencies_distinct.
  - intros visited rest ->. unfold find_dependencies, visit_nodes.
    rewrite fold_left_app. fold (initial_uids w).
    destruct (visit_nodes_spec E ds (visited ++ rest) w visited (initial_uids w))
      as (HI1 & _);
      [apply initial_invariant | intros e He; apply elem_of_app; by left |].
    apply (visit_nodes_spec E ds (visited ++ rest) w rest _ HI1).
    intros e He. apply elem_of_app. by right.
  - apply manifest_identifiers.
  - intros e u. rewrite manifest_entries. intros He Hu.
    apply list_elem_of_fmap in He as (p & -> & Hp).
    rewrite source_refs_spec in Hu. apply elem_of_repeated in Hu as [_ Hu].
    apply list_elem_of_fmap in Hu as (s & Hu & Hs).
    apply elem_of_saved_sources in Hs as [_ Hs].
    exists (node_element E this (find_dependencies E ds nodes w) s). split.
    + apply list_elem_of_fmap_2. by apply elem_of_non_null.
    + by rewrite node_element_UID.
Qed.

(** C6: the entry of a node of the set refers to the identifiers of the
    sources of the node that are in the set themselves, and to nothing
    else; for a node that occurs once in the set that is the list of those
    sources in the order of the storage; and the entry of a node whose
    sources are all outside the set has no [source] element. *)
Theorem dependencies_are_saved_sources (node : DataNodePtr) :
  Some node ∈ nodes ->
  let uids := find_dependencies E ds nodes w in
  let entry := node_element E this uids node in
  entry ∈ node_entries (manifest E this ds nodes w) /\
  (forall ref, ref ∈ source_refs entry <->
     exists s, s ∈ GetSources ds node /\ Some s ∈ nodes /\
               ref = nodeUIDs uids !! s /\ is_Some ref) /\
  (occurrences node nodes = 1 ->
     source_refs entry = (fun s => nodeUIDs uids !! s) <$> saved_sources ds nodes node) /\
  ((forall s, s ∈ GetSources ds node -> Some s ∉ nodes) ->
     ChildElements "source" entry = []).
Proof.
  intros Hnode. cbv zeta.
  destruct find_dependencies_spec as (_ & Hsome & _).
  split; [| split; [| split]].
  - rewrite manifest_entries. apply list_elem_of_fmap_2. by apply elem_of_non_null.
  - intros ref. rewrite source_refs_spec, elem_of_repeated, list_elem_of_fmap. split.
    + intros (_ & s & -> & Hs). apply elem_of_saved_sources in Hs as [Hsrc Hin].
      exists s. repeat split; try done. by apply Hsome.
    + intros (s & Hsrc & Hin & -> & _). split; [by apply occurrences_elem_of |].
      exists s. split; [done |]. by apply elem_of_saved_sources.
  - intros Honce. rewrite source_refs_spec, Honce. cbn. by rewrite app_nil_r.
  - intros Houtside.
    assert (Hnone : saved_sources ds nodes node = []).
    { destruct (saved_sources ds nodes node) as [| s l] eqn:Hl; [done |].
      assert (Hs : s ∈ saved_sources ds nodes node) by (rewrite Hl; by left).
      apply elem_of_saved_sources in Hs as [Hsrc Hin]. by destruct (Houtside s Hsrc). }
    pose proof (source_refs_spec node) as Hrefs. cbv zeta in Hrefs.
    rewrite Hnone in Hrefs. unfold source_refs in Hrefs.
    assert (Hnil : forall k, mjoin (replicate k (@nil (option string))) = []).
    { induction k as [| k IH]; [done | exact IH]. }
    cbn in Hrefs. rewrite Hnil in Hrefs. by apply fmap_nil_inv in Hrefs.
Qed.

End Manifest.

(** ** The staging directory of a save *)

Section StagingPaths.

Variable E : Env.

Lemma drop_last_separator_app (a b : string) :
  b <> "" -> drop_last_separator (a +:+ b) = a +:+ drop_last_separator b.
Proof.
  intros Hb. induction a as [| c a IH]; [reflexivity |].
  change (drop_last_separator (String c (a +:+ b))
          = String c (a +:+ drop_last_separator b)).
  rewrite <- IH. destruct (a +:+ b) as [| d r] eqn:Hab; [| reflexivity].
  by apply append_empty_inv in Hab as [_ ?].
Qed.

Lemma drop_last_separator_slash (s : string) :
  drop_last_separator (s +:+ Path_separator) = s.
Proof.
  induction s as [| c s IH]; [reflexivity |].
  change (drop_last_separator (String c (s +:+ Path_separator)) = String c s).
  rewrite <- IH at 2. destruct (s +:+ Path_separator) as [| d r] eqn:Hs; [| reflexivity].
  by apply append_empty_inv in Hs as [_ ?].
Qed.

Lemma Poco_File_slash (s : string) : s <> "" -> Poco_File (s +:+ Path_separator) = s.
Proof.
  intros Hs. rewrite <- (drop_last_separator_slash s) at 2.
  destruct s as [| c s]; [done |].
  change (String c s +:+ Path_separator) with (String c (s +:+ Path_separator)).
  destruct (s +:+ Path_separator) as [| d r] eqn:Hs'; [| reflexivity].
  by apply append_empty_inv in Hs' as [_ ?].
Qed.

Lemma Poco_File_plain (s : string) : drop_last_separator s = s -> Poco_File s = s.
Proof. intros Hs. by destruct s as [| c [| d r]]. Qed.

Lemma plain_app (a b : string) :
  b <> "" -> drop_last_separator b = b -> drop_last_separator (a +:+ b) = a +:+ b.
Proof. intros Hb Hplain. by rewrite drop_last_separator_app, Hplain. Qed.

Lemma plain_uid (prefix : string) (k : nat) :
  prefix <> "" -> drop_last_separator prefix = prefix ->
  drop_last_separator (uid_tail E k) = uid_tail E k ->
  drop_last_separator (prefix +:+ uid_tail E k) = prefix +:+ uid_tail E k.
Proof.
  intros Hne Hprefix Htail. destruct (uid_tail E k) as [| c t] eqn:Ht.
  - assert (Hnil : prefix +:+ "" = prefix).
    { clear. induction prefix as [| c p IH]; [done |].
      change (String c (p +:+ "") = String c p). by rewrite IH. }
    by rewrite Hnil.
  - by apply plain_app.
Qed.

Lemma first_choice_plain (w : World) :
  (forall i, drop_last_separator (uid_tail E i) = uid_tail E i) ->
  Poco_File (first_choice E w) = first_directory E w.
Proof.
  intros Hplain. unfold first_directory.
  rewrite Poco_File_slash by apply first_choice_nonempty.
  apply Poco_File_plain. unfold first_choice.
  apply plain_app; [discriminate |]. apply plain_app; [discriminate |].
  by apply plain_uid.
Qed.

Lemma second_choice_plain (w : World) :
  (forall i, drop_last_separator (uid_tail E i) = uid_tail E i) ->
  Poco_File (second_choice E w) = second_directory E w.
Proof.
  intros Hplain. unfold second_directory.
  rewrite Poco_File_slash by apply second_choice_nonempty.
  apply Poco_File_plain. unfold second_choice.
  apply plain_app; [discriminate |]. apply plain_app; [discriminate |].
  apply plain_app; [discriminate |]. by apply plain_uid.
Qed.

(** The path [CreateEmptyTempDirectory] returns, when it is not empty,
    is the path of a directory. *)
Lemma CreateEmptyTempDirectory_made (w : World) :
  (forall i, drop_last_separator (uid_tail E i) = uid_tail E i) ->
  (CreateEmptyTempDirectory E w).1 <> "" ->
  directory_exists (Poco_File (CreateEmptyTempDirectory E w).1)
    (CreateEmptyTempDirectory E w).2 = true.
Proof.
  intros Hplain.
  destruct (directory_exists (first_directory E w) w) eqn:Hfirst.
  - rewrite (CreateEmptyTempDirectory_taken E w Hfirst). cbv zeta.
    destruct (directory_exists (second_directory E w) w) eqn:Hsecond;
      [| destruct (createDirectory_throws E (second_directory E w))];
      cbn [fst snd]; intros Hne; try done;
      rewrite second_choice_plain by done.
    + exact Hsecond.
    + apply directory_exists_added.
  - rewrite (CreateEmptyTempDirectory_free E w Hfirst).
    destruct (createDirectory_throws E (first_directory E w));
      cbn [fst snd]; intros Hne; try done.
    rewrite first_choice_plain by done. apply directory_exists_added.
Qed.

(** With a file system that does not fail, it is never empty. *)
Lemma CreateEmptyTempDirectory_succeeds (w : World) :
  (forall p, createDirectory_throws E p = false) ->
  (CreateEmptyTempDirectory E w).1 <> "".
Proof.
  intros Hio.
  destruct (directory_exists (first_directory E w) w) eqn:Hfirst.
  - rewrite (CreateEmptyTempDirectory_taken E w Hfirst). cbv zeta. rewrite Hio.
    destruct (directory_exists (second_directory E w) w); apply second_choice_nonempty.
  - rewrite (CreateEmptyTempDirectory_free E w Hfirst), Hio. apply first_choice_nonempty.
Qed.

Lemma CreateEmptyTempDirectory_documents (w : World) :
  saved_documents (CreateEmptyTempDirectory E w).2 = saved_documents w.
Proof.
  unfold CreateEmptyTempDirectory, UIDGenerator_GetUID, File_createDirectory.
  repeat (match goal with
          | |- context [if ?b then _ else _] => destruct b
          end; cbn); reflexivity.
Qed.

End StagingPaths.

(** ** Saving *)

Section Saving.

Variable E : Env.

(** [SaveScene] past its early returns. *)
Lemma SaveScene_run (this : SceneIO) (nodes : list (option DataNodePtr))
    (ds : DataStorage) (filename : string) (w : World) :
  filename <> "" ->
  (CreateEmptyTempDirectory E w).1 <> "" ->
  let dir := (CreateEmptyTempDirectory E w).1 in
  let w1 := (CreateEmptyTempDirectory E w).2 in
  let uids := find_dependencies E ds nodes w1 in
  let ws := write_nodes E (saving dir this) uids nodes (start_state E) in
  let this2 := set_Failed (failedNodes ws) (failedProperties ws) (saving dir this) in
  let r := write_archive E this2 (document ws) filename (uid_world uids) in
  SaveScene E this (Some nodes) (Some ds) filename w = (r.1, this2, r.2).
Proof.
  intros Hname Hdir. cbv zeta. unfold SaveScene.
  apply string_empty_false in Hname. rewrite Hname.
  destruct (CreateEmptyTempDirectory E w) as [dir w1]. cbn [fst snd] in Hdir |- *.
  fold (saving dir this). fold (start_state E).
  change (m_WorkingDirectory (saving dir this)) with dir.
  apply string_empty_false in Hdir. rewrite Hdir.
  by destruct (write_archive E _ _ filename _).
Qed.

(** The first loop touches nothing in the world but the generator. *)
Lemma find_dependencies_world (ds : DataStorage) (nodes : list (option DataNodePtr))
    (w : World) :
  directories (uid_world (find_dependencies E ds nodes w)) = directories w /\
  saved_documents (uid_world (find_dependencies E ds nodes w)) = saved_documents w.
Proof.
  destruct (find_dependencies_spec E ds nodes w) as (HI & _).
  pose proof (inv_world _ _ _ _ HI) as Hw.
  split.
  - by apply (f_equal directories) in Hw.
  - by apply (f_equal saved_documents) in Hw.
Qed.

(** With a file system that does not fail and the staging directory in
    place, the last part of [SaveScene] writes the manifest, packs the
    archive, removes the staging directory and reports success. *)
Lemma write_archive_succeeds (this : SceneIO) (doc : TiXmlDocument)
    (filename : string) (w : World) :
  io_succeeds E ->
  directory_exists (Poco_File (m_WorkingDirectory this)) w = true ->
  let r := write_archive E this doc filename w in
  r.1 = true /\
  saved_documents r.2 =
    saved_documents w
      ++ [(m_WorkingDirectory this +:+ Path_separator +:+ "index.xml", doc)] /\
  directory_exists (Poco_File (m_WorkingDirectory this)) r.2 = false.
Proof.
  intros Hio Hdir. cbv zeta. unfold write_archive, Path_transcode.
  rewrite (io_SaveFile _ Hio), (io_remove_file _ Hio), (io_ofstream _ Hio),
    (io_Compress _ Hio), andb_false_r.
  cbn [negb]. unfold File_remove_recursive.
  change (directory_exists ?p (add_archive _ _ (add_saved_document _ _ w)))
    with (directory_exists p w).
  rewrite Hdir, (io_remove_directory _ Hio). cbn [fst snd].
  split; [reflexivity |]. split; [reflexivity |].
  apply directory_gone.
Qed.

(** A save that reports success has removed its staging directory. *)
Lemma write_archive_true (this : SceneIO) (doc : TiXmlDocument)
    (filename : string) (w : World) :
  (write_archive E this doc filename w).1 = true ->
  directory_exists (Poco_File (m_WorkingDirectory this))
    (write_archive E this doc filename w).2 = false.
Proof.
  unfold write_archive, File_remove_recursive.
  repeat (match goal with
          | |- context [if ?b then _ else _] => destruct b
          end; cbn [fst snd]; try discriminate).
  intros _. apply directory_gone.
Qed.

Lemma serializer_raises_error (this : SceneIO) (node : DataNodePtr) :
  serializer_raises E node -> payload_error E this node = true.
Proof.
  intros (data & run & Hdata & Hfirst & Hrun).
  unfold payload_error, SaveBaseData. by rewrite Hdata, Hfirst, Hrun.
Qed.

Lemma filter_absent (f : DataNodePtr -> bool) (x : DataNodePtr)
    (entries : list (option DataNodePtr)) :
  occurrences x entries = 0 ->
  (forall q, Some q ∈ entries -> f q = true -> q = x) ->
  List.filter f (non_null entries) = [].
Proof.
  induction entries as [| [q |] entries IH]; intros Hocc Hf; [done | |].
  - rewrite occurrences_cons in Hocc.
    destruct (decide (q = x)) as [-> | Hne].
    + by rewrite bool_decide_eq_true_2 in Hocc.
    + rewrite bool_decide_eq_false_2 in Hocc by congruence.
      cbn. destruct (f q) eqn:Hq.
      * destruct Hne. apply Hf; [by left | done].
      * apply IH; [done |]. intros q' Hq'. apply Hf. by right.
  - rewrite occurrences_cons, bool_decide_eq_false_2 in Hocc by done.
    cbn. apply IH; [done |]. intros q' Hq'. apply Hf. by right.
Qed.

Lemma filter_single (f : DataNodePtr -> bool) (x : DataNodePtr)
    (entries : list (option DataNodePtr)) :
  occurrences x entries = 1 ->
  (forall q, Some q ∈ entries -> (f q = true <-> q = x)) ->
  List.filter f (non_null entries) = [x].
Proof.
  induction entries as [| [q |] entries IH]; intros Hocc Hf; [done | |].
  - rewrite occurrences_cons in Hocc.
    destruct (decide (q = x)) as [-> | Hne].
    + rewrite bool_decide_eq_true_2 in Hocc by done.
      cbn. rewrite (proj2 (Hf x ltac:(by left)) eq_refl). f_equal.
      apply (filter_absent f x); [lia |].
      intros q' Hq'. apply Hf. by right.
    + rewrite bool_decide_eq_false_2 in Hocc by congruence.
      cbn. destruct (f q) eqn:Hq.
      * destruct Hne. apply Hf; [by left | done].
      * apply IH; [done |]. intros q' Hq'. apply Hf. by right.
  - rewrite occurrences_cons, bool_decide_eq_false_2 in Hocc by done.
    cbn. apply IH; [done |]. intros q' Hq'. apply Hf. by right.
Qed.

(** C2: the serializer of one node of the set throws, the payloads of
    the other nodes are written and no call into the file system fails.
    Then [SaveScene] returns [true], the failed nodes are that one node,
    and the manifest it wrote has one entry per node of the set, in the
    order of the set, each with the identifier of its node, where no two
    nodes share an identifier. *)
Theorem SaveScene_partial_failure (this : SceneIO) (nodes : list (option DataNodePtr))
    (ds : DataStorage) (filename : string) (w : World) (failing : DataNodePtr) :
  io_succeeds E ->
  uid_generator_ok E ->
  filename <> "" ->
  occurrences failing nodes = 1 ->
  serializer_raises E failing ->
  (forall q, Some q ∈ nodes -> q <> failing -> payload_written E q) ->
  let dir := (CreateEmptyTempDirectory E w).1 in
  let uids := find_dependencies E ds nodes (CreateEmptyTempDirectory E w).2 in
  let r := SaveScene E this (Some nodes) (Some ds) filename w in
  r.1.1 = true /\
  GetFailedNodes r.1.2 = Some [failing] /\
  exists doc,
    saved_documents r.2 =
      saved_documents w ++ [(dir +:+ Path_separator +:+ "index.xml", doc)] /\
    Attribute "UID" <$> node_entries doc = (fun q => nodeUIDs uids !! q) <$> non_null nodes /\
    (forall q, Some q ∈ nodes -> is_Some (nodeUIDs uids !! q)) /\
    uids_distinct (nodeUIDs uids).
Proof.
  intros Hio Hgen Hname Honce Hraises Hothers. cbv zeta.
  pose proof (CreateEmptyTempDirectory_succeeds E w (io_createDirectory _ Hio)) as Hdir.
  pose proof (CreateEmptyTempDirectory_made E w (uid_plain _ Hgen) Hdir) as Hmade.
  pose proof (CreateEmptyTempDirectory_documents E w) as Hdocs.
  rewrite (SaveScene_run this nodes ds filename w Hname Hdir). cbv zeta. cbn [fst snd].
  set (dir := (CreateEmptyTempDirectory E w).1) in *.
  set (w1 := (CreateEmptyTempDirectory E w).2) in *.
  set (uids := find_dependencies E ds nodes w1).
  set (ws := write_nodes E (saving dir this) uids nodes (start_state E)).
  set (this2 := set_Failed (failedNodes ws) (failedProperties ws) (saving dir this)).
  destruct (find_dependencies_world ds nodes w1) as [Hdirs Hsaved].
  destruct (write_archive_succeeds this2 (document ws) filename (uid_world uids) Hio)
    as (Hok & Hwritten & _).
  { unfold directory_exists in Hmade |- *. fold uids in Hdirs.
    change (m_WorkingDirectory this2) with dir. by rewrite Hdirs. }
  split; [exact Hok |]. split.
  - cbn. f_equal. subst ws.
    destruct (write_nodes_spec E (saving dir this) uids nodes (start_state E)) as [_ ->].
    cbn [failedNodes start_state app]. apply filter_single; [exact Honce |].
    intros q Hq. split.
    + intros Herr. destruct (decide (q = failing)) as [-> | Hne]; [done |].
      by rewrite (Hothers q Hq Hne (saving dir this)) in Herr.
    + intros ->. by apply serializer_raises_error.
  - exists (document ws). split; [| split; [| split]].
    + rewrite Hwritten. fold uids in Hsaved. by rewrite Hsaved, Hdocs.
    + apply (manifest_identifiers E (saving dir this) ds nodes w1).
    + apply (find_dependencies_spec E ds nodes w1).
    + apply (find_dependencies_distinct E ds nodes w1 (uid_distinct _ Hgen)).
Qed.

(** When the last part of [SaveScene] reports failure although the
    staging directory could have been removed, the staging directory is
    still there: none of the three early returns removes it. *)
Lemma write_archive_false (this : SceneIO) (doc : TiXmlDocument)
    (filename : string) (w : World) :
  Directory_remove_throws E (Poco_File (m_WorkingDirectory this)) = false ->
  directory_exists (Poco_File (m_WorkingDirectory this)) w = true ->
  (write_archive E this doc filename w).1 = false ->
  directory_exists (Poco_File (m_WorkingDirectory this))
    (write_archive E this doc filename w).2 = true.
Proof.
  intros Hremove Hdir. unfold write_archive, File_remove_recursive.
  change (directory_exists ?p (add_archive _ _ (add_saved_document _ _ w)))
    with (directory_exists p w).
  rewrite Hdir, Hremove.
  repeat (match goal with
          | |- context [if ?b then _ else _] => destruct b
          end; cbn [fst snd]; try discriminate); intros _; exact Hdir.
Qed.

Lemma in_scene_non_null (nodes : list (option DataNodePtr)) (p : DataNodePtr) :
  in_scene (Some <$> non_null nodes) p = in_scene nodes p.
Proof.
  unfold in_scene. apply bool_decide_ext.
  rewrite <- (elem_of_non_null p nodes), list_elem_of_fmap. split.
  - by intros (x & [= ->] & Hx).
  - intros Hp. by exists p.
Qed.

Lemma visit_node_scene (ds : DataStorage) (scene1 scene2 : list (option DataNodePtr))
    (st : UIDState) (entry : option DataNodePtr) :
  (forall p, in_scene scene1 p = in_scene scene2 p) ->
  visit_node E ds scene1 st entry = visit_node E ds scene2 st entry.
Proof.
  intros Hsame. destruct entry as [node |]; [| reflexivity].
  cbn [visit_node]. f_equal.
  generalize (GetSources ds node) as srcs. intros srcs. revert st.
  induction srcs as [| s srcs IHs]; intros st; [reflexivity |].
  cbn [fold_left]. rewrite <- IHs. f_equal. unfold visit_source. by rewrite Hsame.
Qed.

Lemma visit_nodes_scene (ds : DataStorage) (scene1 scene2 : list (option DataNodePtr))
    (entries : list (option DataNodePtr)) (st : UIDState) :
  (forall p, in_scene scene1 p = in_scene scene2 p) ->
  visit_nodes E ds scene1 entries st = visit_nodes E ds scene2 entries st.
Proof.
  intros Hsame. unfold visit_nodes. revert st.
  induction entries as [| entry entries IH]; intros st; [reflexivity |].
  cbn [fold_left]. rewrite (visit_node_scene ds scene1 scene2 st entry Hsame). apply IH.
Qed.

Lemma visit_nodes_non_null (ds : DataStorage) (scene entries : list (option DataNodePtr))
    (st : UIDState) :
  visit_nodes E ds scene entries st = visit_nodes E ds scene (Some <$> non_null entries) st.
Proof.
  unfold visit_nodes. revert st.
  induction entries as [| [node |] entries IH]; intros st; [reflexivity | |].
  - cbn. apply IH.
  - cbn. apply IH.
Qed.

Lemma write_nodes_non_null (this : SceneIO) (uids : UIDState)
    (entries : list (option DataNodePtr)) (ws : WriteState) :
  write_nodes E this uids entries ws = write_nodes E this uids (Some <$> non_null entries) ws.
Proof.
  unfold write_nodes. revert ws.
  induction entries as [| [node |] entries IH]; intros ws; [reflexivity | |].
  - cbn [fold_left non_null omap list_omap fmap list_fmap id]. apply IH.
  - cbn. apply IH.
Qed.

Lemma find_dependencies_non_null (ds : DataStorage) (nodes : list (option DataNodePtr))
    (w : World) :
  find_dependencies E ds nodes w = find_dependencies E ds (Some <$> non_null nodes) w.
Proof.
  unfold find_dependencies.
  rewrite (visit_nodes_non_null ds nodes nodes).
  apply visit_nodes_scene. intros p. symmetry. apply in_scene_non_null.
Qed.

End Saving.

(** C10: a null entry of the node set changes nothing.  [SaveScene]
    returns what it returns for the set without its null entries, with
    the same failed nodes, failed properties, manifest, archive and
    staging directory; only the nodes behind non-null entries get an
    identifier, an entry in the manifest, or a place among the failed
    nodes. *)
Theorem SaveScene_skips_null_entries (E : Env) (this : SceneIO)
    (nodes : list (option DataNodePtr)) (storage : option DataStorage)
    (filename : string) (w : World) :
  SaveScene E this (Some nodes) storage filename w
    = SaveScene E this (Some (Some <$> non_null nodes)) storage filename w /\
  forall (ds : DataStorage) (w1 : World),
    let uids := find_dependencies E ds nodes w1 in
    dom (nodeUIDs uids) = list_to_set (non_null nodes) /\
    node_entries (manifest E this ds nodes w1)
      = node_element E this uids <$> non_null nodes /\
    failedNodes (write_nodes E this uids nodes (start_state E))
      = List.filter (payload_error E this) (non_null nodes).
Proof.
  split.
  - destruct storage as [ds |]; [| reflexivity]. unfold SaveScene.
    destruct (string_empty filename); [reflexivity |].
    destruct (CreateEmptyTempDirectory E w) as [dir w1].
    destruct (string_empty _); [reflexivity |].
    by rewrite <- find_dependencies_non_null, <- write_nodes_non_null.
  - intros ds w1. cbv zeta. split; [apply find_dependencies_dom |].
    split; [apply manifest_entries |].
    by destruct (write_nodes_spec E this (find_dependencies E ds nodes w1) nodes
                   (start_state E)) as [_ ->].
Qed.

(** A save of a set with a null entry that returns [true]. *)
Lemma SaveScene_with_null_entry :
  let r := SaveScene Sample.calm SceneIO_New (Some [Some 1; None; Some 3])
             (Some Sample.storage) "scene.mitk" (Sample.world []) in
  r.1.1 = true /\
  GetFailedNodes r.1.2 = Some [] /\
  Attribute "UID" <$> mjoin (node_entries <$> (saved_documents r.2).*2)
    = [Some "OBJECT_I0"; Some "OBJECT_II0"].
Proof. vm_compute. repeat split. Qed.

(** C1, at a manifest that cannot be written: [SaveScene] made the
    staging directory, returns [false], and the directory is still
    there. *)
Theorem SaveScene_leaves_staging_behind :
  let E := Sample.env false None [] in
  let w := Sample.world [] in
  let r := SaveScene E SceneIO_New (Some [Some 1]) (Some Sample.storage) "scene.mitk" w in
  r.1.1 = false /\
  m_WorkingDirectory r.1.2 = "/tmp/SceneIOTempUID_0" /\
  directory_exists "/tmp/SceneIOTempUID_0" w = false /\
  directory_exists "/tmp/SceneIOTempUID_0" r.2 = true.
Proof. vm_compute. repeat split. Qed.

(** C3, the claim as written fails: the serializer of the surface of
    node 2 throws, node 2 is among the failed nodes, and its entry in the
    manifest has a [data] element all the same (with the type, without a
    file). *)
Lemma failed_payload_has_data_element :
  let r := SaveScene Sample.calm SceneIO_New (Some [Some 2])
             (Some Sample.storage) "scene.mitk" (Sample.world []) in
  r.1.1 = true /\
  GetFailedNodes r.1.2 = Some [2] /\
  mjoin (node_entries <$> (saved_documents r.2).*2) =
    [TiXmlElement "node" [("UID", "OBJECT_I0")]
       [TiXmlElement "data" [("type", "Surface")]
          [TiXmlElement "properties" [("file", "liver-data")] []]]].
Proof. vm_compute. repeat split. Qed.

(** C3, as the code has it: the entry of a node with a payload has one
    [data] element whether or not the payload could be written; the
    element names the type of the payload; it has a file reference
    exactly when [SaveBaseData] raised no error; and when it did, the node
    joins the failed nodes. *)
Theorem payload_element_always_written (E : Env) (this : SceneIO) (uids : UIDState)
    (ws : WriteState) (node : DataNodePtr) (data : BaseData) :
  GetData (deref E node) = Some data ->
  let ws' := write_node E this uids ws (Some node) in
  exists nodeElement payload,
    document ws' = document ws ++ [nodeElement] /\
    ChildElements "data" nodeElement = [payload] /\
    Attribute "type" payload = Some (GetNameOfClass data) /\
    (Attribute "file" payload = None <-> payload_error E this node = true) /\
    failedNodes ws' =
      (if payload_error E this node then failedNodes ws ++ [node] else failedNodes ws).
Proof.
  intros Hdata. cbv zeta. unfold write_node.
  destruct (build_node_spec E this uids node (failedNodes ws) (failedProperties ws))
    as [Hel Hfn].
  destruct (build_node E this uids node _ _) as [[el fn] fp]. cbn in Hel, Hfn |- *.
  subst el fn.
  destruct (node_element_shape E this uids node) as (payload & props & Hshape & Hprops & Hp).
  rewrite Hdata in Hp. destruct Hp as (attrs & kids & -> & Htype & Hfile).
  exists (node_element E this uids node), (TiXmlElement "data" attrs kids).
  split; [reflexivity |].
  split; [| split; [exact Htype | split; [exact Hfile | reflexivity]]].
  rewrite Hshape. unfold ChildElements. cbn [Children].
  rewrite !List.filter_app.
  rewrite (others_are_not "data" "source"); [| discriminate |].
  - rewrite (properties_are_not "data" props); [reflexivity | discriminate | exact Hprops].
  - apply Forall_fmap, Forall_true. reflexivity.
Qed.

(** ** The sample environment is well behaved *)

Lemma tally_inj (i j : nat) : Sample.tally i = Sample.tally j -> i = j.
Proof.
  revert j. induction i as [| i IH]; intros [| j] H; try done.
  cbn in H. f_equal. apply IH. by injection H.
Qed.

Lemma tally_plain (i : nat) : drop_last_separator (Sample.tally i) = Sample.tally i.
Proof.
  induction i as [| i IH]; [reflexivity |].
  cbn [Sample.tally]. destruct i as [| i]; [reflexivity |].
  change (String "I" (drop_last_separator (Sample.tally (S i)))
          = String "I" (Sample.tally (S i))).
  by rewrite IH.
Qed.

Lemma sample_uid_generator_ok (saveFileOk : bool) (index : option TiXmlDocument)
    (added : list (DataNodePtr * list DataNodePtr)) :
  uid_generator_ok (Sample.env saveFileOk index added).
Proof. split; [exact tally_inj | exact tally_plain]. Qed.

Lemma sample_io_succeeds (index : option TiXmlDocument)
    (added : list (DataNodePtr * list DataNodePtr)) :
  io_succeeds (Sample.env true index added).
Proof. by split. Qed.

(** ** The theorems at the sample scene *)

Lemma SaveScene_partial_failure_witness :
  let r := SaveScene Sample.calm SceneIO_New (Some [Some 1; Some 2; Some 3])
             (Some Sample.storage) "scene.mitk" (Sample.world []) in
  r.1.1 = true /\ GetFailedNodes r.1.2 = Some [2].
Proof.
  destruct (SaveScene_partial_failure Sample.calm SceneIO_New [Some 1; Some 2; Some 3]
              Sample.storage "scene.mitk" (Sample.world []) 2) as (Hok & Hfailed & _).
  - apply sample_io_succeeds.
  - apply sample_uid_generator_ok.
  - discriminate.
  - reflexivity.
  - exists Sample.surface, (fun _ _ _ => None). repeat split.
  - intros q Hq Hne this.
    apply elem_of_cons in Hq as [[= ->] | Hq]; [reflexivity |].
    apply elem_of_cons in Hq as [[= ->] | Hq]; [done |].
    apply elem_of_cons in Hq as [[= ->] | Hq]; [reflexivity |].
    by apply elem_of_nil in Hq.
  - split; [exact Hok | exact Hfailed].
Defined.

Lemma payload_element_always_written_witness :
  exists nodeElement payload,
    document (write_node Sample.calm SceneIO_New (initial_uids (Sample.world []))
                (start_state Sample.calm) (Some 2))
      = document (start_state Sample.calm) ++ [nodeElement] /\
    ChildElements "data" nodeElement = [payload] /\
    Attribute "type" payload = Some "Surface" /\
    Attribute "file" payload = None.
Proof.
  destruct (payload_element_always_written Sample.calm SceneIO_New
              (initial_uids (Sample.world [])) (start_state Sample.calm) 2 Sample.surface
              eq_refl) as (nodeElement & payload & Hdoc & Hdata & Htype & Hfile & _).
  exists nodeElement, payload. repeat split; try done.
  by apply Hfile.
Defined.

Lemma identifiers_one_per_node_witness :
  let uids := find_dependencies Sample.calm Sample.storage [Some 1; None; Some 2; Some 3]
                (Sample.world []) in
  uid_count (uid_world uids) = 3 /\ uids_distinct (nodeUIDs uids).
Proof.
  destruct (identifiers_one_per_node Sample.calm SceneIO_New Sample.storage
              [Some 1; None; Some 2; Some 3] (Sample.world []) tally_inj)
    as (_ & Hcount & Hdistinct & _).
  split; [exact Hcount | exact Hdistinct].
Defined.

Lemma dependencies_are_saved_sources_witness :
  let uids := find_dependencies Sample.calm Sample.storage [Some 2; Some 3]
                (Sample.world []) in
  source_refs (node_element Sample.calm SceneIO_New uids 3) = [Some "OBJECT_0"] /\
  ChildElements "source" (node_element Sample.calm SceneIO_New uids 2) = [].
Proof.
  destruct (dependencies_are_saved_sources Sample.calm SceneIO_New Sample.storage
              [Some 2; Some 3] (Sample.world []) 3) as (_ & _ & Honce & _).
  { apply elem_of_cons. right. apply elem_of_cons. by left. }
  destruct (dependencies_are_saved_sources Sample.calm SceneIO_New Sample.storage
              [Some 2; Some 3] (Sample.world []) 2) as (_ & _ & _ & Hnone).
  { apply elem_of_cons. by left. }
  split.
  - rewrite (Honce eq_refl). reflexivity.
  - apply Hnone. intros s Hs.
    apply elem_of_cons in Hs as [-> | Hs]; [| by apply elem_of_nil in Hs].
    intros Hin.
    apply elem_of_cons in Hin as [[=] | Hin].
    apply elem_of_cons in Hin as [[=] | Hin].
    by apply elem_of_nil in Hin.
Defined.

Lemma LoadScene_clear_first_witness :
  let E := Sample.env true (Some []) [(20, []); (21, [20])] in
  let r := LoadScene E SceneIO_New "scene.mitk" (Some 5) true
             (Sample.world_with Sample.storage) in
  GetAll Sample.storage = [1; 2; 3; 9] /\ GetAll (storage_at r.2 5) = [20; 21].
Proof.
  intros E r. split; [reflexivity |].
  destruct (LoadScene_clear_first E SceneIO_New "scene.mitk" 5 true
              (Sample.world_with Sample.storage)) as (start & Hstart & Hnodes).
  - discriminate.
  - reflexivity.
  - vm_compute. discriminate.
  - intros _. reflexivity.
  - subst r. rewrite Hnodes, Hstart. cbn [app]. unfold reloaded.
    destruct (string_empty _) eqn:Hempty; [vm_compute in Hempty; discriminate |].
    reflexivity.
Defined.

Lemma LoadScene_clears_before_parsing_witness :
  let E := Sample.env true None [] in
  let r := LoadScene E SceneIO_New "scene.mitk" (Some 5) true
             (Sample.world_with Sample.storage) in
  GetAll (storage_at (Sample.world_with Sample.storage) 5) = [1; 2; 3; 9] /\
  r.1.1 = Some 5 /\ GetAll (storage_at r.2 5) = [].
Proof.
  intros E r. split; [reflexivity |].
  apply (LoadScene_clears_before_parsing E SceneIO_New "scene.mitk" 5
           (Sample.world_with Sample.storage)).
  - discriminate.
  - reflexivity.
  - vm_compute. discriminate.
  - reflexivity.
  - reflexivity.
Defined.

(** * Further properties of [SceneIO] *)

(** ** Creating the staging directory *)

Section StagingEffects.

Variable E : Env.

Lemma CreateEmptyTempDirectory_archives (w : World) :
  archives (CreateEmptyTempDirectory E w).2 = archives w.
Proof.
  unfold CreateEmptyTempDirectory, UIDGenerator_GetUID, File_createDirectory.
  repeat (match goal with
          | |- context [if ?b then _ else _] => destruct b
          end; cbn); reflexivity.
Qed.

Lemma CreateEmptyTempDirectory_failed (w : World) :
  (CreateEmptyTempDirectory E w).1 = "" ->
  directories (CreateEmptyTempDirectory E w).2 = directories w.
Proof.
  destruct (directory_exists (first_directory E w) w) eqn:Hfirst.
  - rewrite (CreateEmptyTempDirectory_taken E w Hfirst). cbv zeta.
    destruct (directory_exists (second_directory E w) w);
      [| destruct (createDirectory_throws E (second_directory E w))];
      cbn [fst snd]; intros Hr; try reflexivity.
    by destruct (second_choice_nonempty E w).
  - rewrite (CreateEmptyTempDirectory_free E w Hfirst).
    destruct (createDirectory_throws E (first_directory E w));
      cbn [fst snd]; intros Hr; try reflexivity.
    by destruct (first_choice_nonempty E w).
Qed.

(** [CreateEmptyTempDirectory] draws one identifier, or two when it
    falls back; it removes no directory and makes at most one; when it
    reports failure the directories are as they were; and it touches
    nothing else. *)
Theorem CreateEmptyTempDirectory_effect (w : World) :
  let r := CreateEmptyTempDirectory E w in
  (uid_count r.2 = 1 + uid_count w \/ uid_count r.2 = 2 + uid_count w) /\
  (directories r.2 = directories w \/
   exists d, (d ∉ directories w) /\ directories r.2 = d :: directories w) /\
  (r.1 = "" -> directories r.2 = directories w) /\
  storages r.2 = storages w /\
  saved_documents r.2 = saved_documents w /\
  archives r.2 = archives w.
Proof.
  cbv zeta. split; [| split; [| split; [| split; [| split]]]].
  - destruct (directory_exists (first_directory E w) w) eqn:Hfirst.
    + rewrite (CreateEmptyTempDirectory_taken E w Hfirst). cbv zeta.
      destruct (directory_exists (second_directory E w) w);
        [| destruct (createDirectory_throws E (second_directory E w))]; by right.
    + rewrite (CreateEmptyTempDirectory_free E w Hfirst).
      destruct (createDirectory_throws E (first_directory E w)); by left.
  - destruct (directory_exists (first_directory E w) w) eqn:Hfirst.
    + rewrite (CreateEmptyTempDirectory_taken E w Hfirst). cbv zeta.
      destruct (directory_exists (second_directory E w) w) eqn:Hsecond;
        [by left |].
      destruct (createDirectory_throws E (second_directory E w)); [by left |].
      right. exists (second_directory E w). split; [| reflexivity].
      unfold directory_exists in Hsecond. by apply bool_decide_eq_false in Hsecond.
    + rewrite (CreateEmptyTempDirectory_free E w Hfirst).
      destruct (createDirectory_throws E (first_directory E w)); [by left |].
      right. exists (first_directory E w). split; [| reflexivity].
      unfold directory_exists in Hfirst. by apply bool_decide_eq_false in Hfirst.
  - apply CreateEmptyTempDirectory_failed.
  - apply CreateEmptyTempDirectory_storages.
  - apply CreateEmptyTempDirectory_documents.
  - apply CreateEmptyTempDirectory_archives.
Qed.

End StagingEffects.

(** ** What a save leaves behind *)

Section SaveEffects.

Variable E : Env.

Lemma find_dependencies_frame (ds : DataStorage) (nodes : list (option DataNodePtr))
    (w : World) :
  archives (uid_world (find_dependencies E ds nodes w)) = archives w /\
  storages (uid_world (find_dependencies E ds nodes w)) = storages w.
Proof.
  destruct (find_dependencies_spec E ds nodes w) as (HI & _).
  pose proof (inv_world _ _ _ _ HI) as Hw.
  split.
  - by apply (f_equal archives) in Hw.
  - by apply (f_equal storages) in Hw.
Qed.


(** What the last part of [SaveScene] has done when it reports success. *)
Lemma write_archive_done (this : SceneIO) (doc : TiXmlDocument)
    (filename : string) (w : World) :
  (write_archive E this doc filename w).1 = true ->
  saved_documents (write_archive E this doc filename w).2 =
    saved_documents w ++ [(m_WorkingDirectory this +:+ Path_separator +:+ "index.xml", doc)] /\
  archives (write_archive E this doc filename w).2 =
    archives w ++ [(filename, m_WorkingDirectory this)].
Proof.
  unfold write_archive, File_remove_recursive, Path_transcode.
  repeat (match goal with
          | |- context [if ?b then _ else _] => destruct b
          end; cbn [fst snd]; try discriminate).
  intros _. split; reflexivity.
Qed.

(** [SaveScene] with a null node set, a null storage or an empty file
    name returns [false] and leaves everything as it was: the failed
    nodes and failed properties of an earlier save are still there, no
    identifier is drawn and no directory is made. *)
Theorem SaveScene_rejects_missing_input (this : SceneIO)
    (sceneNodes : option (list (option DataNodePtr))) (storage : option DataStorage)
    (filename : string) (w : World) :
  sceneNodes = None \/ storage = None \/ filename = "" ->
  SaveScene E this sceneNodes storage filename w = (false, this, w).
Proof.
  intros [-> | [-> | ->]]; unfold SaveScene.
  - reflexivity.
  - by destruct sceneNodes.
  - by destruct sceneNodes, storage.
Qed.

(** When the staging directory cannot be made, [SaveScene] returns
    [false] with both failure accumulators reset to empty and an empty
    working directory; it wrote no manifest and no archive, and the
    directories are as they were. *)
Theorem SaveScene_without_staging (this : SceneIO) (nodes : list (option DataNodePtr))
    (ds : DataStorage) (filename : string) (w : World) :
  filename <> "" ->
  (CreateEmptyTempDirectory E w).1 = "" ->
  let r := SaveScene E this (Some nodes) (Some ds) filename w in
  r.1.1 = false /\
  GetFailedNodes r.1.2 = Some [] /\
  GetFailedProperties r.1.2 = Some ∅ /\
  m_WorkingDirectory r.1.2 = "" /\
  directories r.2 = directories w /\
  saved_documents r.2 = saved_documents w /\
  archives r.2 = archives w.
Proof.
  intros Hname Hdir. cbv zeta. unfold SaveScene.
  apply string_empty_false in Hname. rewrite Hname.
  pose proof (CreateEmptyTempDirectory_failed E w Hdir) as Hdirs.
  pose proof (CreateEmptyTempDirectory_documents E w) as Hdocs.
  pose proof (CreateEmptyTempDirectory_archives E w) as Harch.
  destruct (CreateEmptyTempDirectory E w) as [dir w1]. cbn [fst snd] in *.
  subst dir. cbn. by repeat split.
Qed.

(** A [SaveScene] that returns [true] got its staging directory, wrote
    the manifest of the node set to [index.xml] in it, packed it into
    the archive at the file name, and removed it; the object remembers
    it as its working directory. *)
Theorem SaveScene_true (this : SceneIO) (nodes : list (option DataNodePtr))
    (ds : DataStorage) (filename : string) (w : World) :
  (SaveScene E this (Some nodes) (Some ds) filename w).1.1 = true ->
  let dir := (CreateEmptyTempDirectory E w).1 in
  let w1 := (CreateEmptyTempDirectory E w).2 in
  let r := SaveScene E this (Some nodes) (Some ds) filename w in
  filename <> "" /\ dir <> "" /\
  m_WorkingDirectory r.1.2 = dir /\
  saved_documents r.2 =
    saved_documents w
      ++ [(dir +:+ Path_separator +:+ "index.xml", manifest E (saving dir this) ds nodes w1)] /\
  archives r.2 = archives w ++ [(filename, dir)] /\
  directory_exists (Poco_File dir) r.2 = false.
Proof.
  intros Htrue. cbv zeta.
  assert (Hname : filename <> "").
  { intros ->. by cbn in Htrue. }
  assert (Hdir : (CreateEmptyTempDirectory E w).1 <> "").
  { intros Hdir. unfold SaveScene in Htrue.
    apply string_empty_false in Hname. rewrite Hname in Htrue.
    destruct (CreateEmptyTempDirectory E w) as [dir w1]. cbn [fst snd] in Hdir.
    subst dir. by cbn in Htrue. }
  rewrite (SaveScene_run E this nodes ds filename w Hname Hdir) in Htrue |- *.
  cbv zeta in Htrue |- *. cbn [fst snd] in Htrue |- *.
  split; [exact Hname |]. split; [exact Hdir |]. split; [reflexivity |].
  destruct (write_archive_done _ _ _ _ Htrue) as [Hdocs Harch].
  pose proof (write_archive_true E _ _ _ _ Htrue) as Hgone.
  destruct (find_dependencies_world E ds nodes (CreateEmptyTempDirectory E w).2)
    as [_ Hsaved].
  destruct (find_dependencies_frame ds nodes (CreateEmptyTempDirectory E w).2)
    as [Hkept _].
  split; [| split; [| exact Hgone]].
  - rewrite Hdocs, Hsaved, CreateEmptyTempDirectory_documents. reflexivity.
  - rewrite Harch, Hkept, CreateEmptyTempDirectory_archives. reflexivity.
Qed.

End SaveEffects.

Section SaveOutcomes.

Variable E : Env.

(** Saving an empty node set works like any other save: with a file
    system that does not fail [SaveScene] returns [true], both failure
    accumulators are empty, the manifest is the declaration and the
    [Version] element with no [node] element, and the archive is
    packed. *)
Theorem SaveScene_empty_scene (this : SceneIO) (ds : DataStorage)
    (filename : string) (w : World) :
  io_succeeds E ->
  uid_generator_ok E ->
  filename <> "" ->
  let dir := (CreateEmptyTempDirectory E w).1 in
  let r := SaveScene E this (Some []) (Some ds) filename w in
  r.1.1 = true /\
  GetFailedNodes r.1.2 = Some [] /\
  GetFailedProperties r.1.2 = Some ∅ /\
  saved_documents r.2 =
    saved_documents w ++ [(dir +:+ Path_separator +:+ "index.xml", document_start E)] /\
  node_entries (document_start E) = [] /\
  archives r.2 = archives w ++ [(filename, dir)].
Proof.
  intros Hio Hgen Hname. cbv zeta.
  pose proof (CreateEmptyTempDirectory_succeeds E w (io_createDirectory _ Hio)) as Hdir.
  pose proof (CreateEmptyTempDirectory_made E w (uid_plain _ Hgen) Hdir) as Hmade.
  rewrite (SaveScene_run E this [] ds filename w Hname Hdir). cbv zeta. cbn [fst snd].
  change (find_dependencies E ds [] ?w1) with (initial_uids w1).
  change (write_nodes E ?t ?u [] ?ws) with ws.
  cbn [failedNodes failedProperties document start_state uid_world initial_uids].
  set (dir := (CreateEmptyTempDirectory E w).1) in *.
  set (this2 := set_Failed [] ∅ (saving dir this)).
  destruct (write_archive_succeeds E this2 (document_start E) filename
              (CreateEmptyTempDirectory E w).2 Hio Hmade) as (Hok & Hdocs & _).
  destruct (write_archive_done E this2 (document_start E) filename _ Hok) as [_ Harch].
  split; [exact Hok |]. split; [reflexivity |]. split; [reflexivity |].
  split; [| split; [reflexivity |]].
  - rewrite Hdocs, CreateEmptyTempDirectory_documents. reflexivity.
  - rewrite Harch, CreateEmptyTempDirectory_archives. reflexivity.
Qed.

(** When everything works but the removal of the staging directory,
    [SaveScene] returns [false] although the manifest is written and the
    archive is packed; the staging directory stays. *)
Theorem SaveScene_removal_failure (this : SceneIO) (nodes : list (option DataNodePtr))
    (ds : DataStorage) (filename : string) (w : World) :
  filename <> "" ->
  (forall p, createDirectory_throws E p = false) ->
  (forall i, drop_last_separator (uid_tail E i) = uid_tail E i) ->
  (forall p, SaveFile_ok E p = true) ->
  (forall p, File_remove_throws E p = false) ->
  (forall p, ofstream_good E p = true) ->
  (forall d p, Compress_throws E d p = false) ->
  (forall p, Directory_remove_throws E p = true) ->
  let dir := (CreateEmptyTempDirectory E w).1 in
  let r := SaveScene E this (Some nodes) (Some ds) filename w in
  r.1.1 = false /\
  archives r.2 = archives w ++ [(filename, dir)] /\
  directory_exists (Poco_File dir) r.2 = true.
Proof.
  intros Hname Hmkdir Hplain Hsave Hrm Hopen Hzip Hrmdir. cbv zeta.
  pose proof (CreateEmptyTempDirectory_succeeds E w Hmkdir) as Hdir.
  pose proof (CreateEmptyTempDirectory_made E w Hplain Hdir) as Hmade.
  rewrite (SaveScene_run E this nodes ds filename w Hname Hdir). cbv zeta. cbn [fst snd].
  set (dir := (CreateEmptyTempDirectory E w).1) in *.
  set (w1 := (CreateEmptyTempDirectory E w).2) in *.
  destruct (find_dependencies_world E ds nodes w1) as [Hdirs _].
  destruct (find_dependencies_frame E ds nodes w1) as [Harch _].
  unfold write_archive, File_remove_recursive, Path_transcode.
  rewrite Hsave, Hrm, Hopen, Hzip, andb_false_r. cbn [negb].
  change (m_WorkingDirectory (set_Failed _ _ (saving dir this))) with dir.
  change (directory_exists ?p (add_archive _ _ (add_saved_document _ _ ?w0)))
    with (directory_exists p w0).
  assert (Hthere : directory_exists (Poco_File dir)
                     (uid_world (find_dependencies E ds nodes w1)) = true).
  { unfold directory_exists in Hmade |- *. by rewrite Hdirs. }
  rewrite Hthere, Hrmdir. cbn [fst snd].
  split; [reflexivity |]. split; [| exact Hthere].
  cbn. rewrite Harch. unfold w1. by rewrite CreateEmptyTempDirectory_archives.
Qed.


Lemma payload_error_WorkingDirectory (this this' : SceneIO) (node : DataNodePtr) :
  m_WorkingDirectory this = m_WorkingDirectory this' ->
  payload_error E this node = payload_error E this' node.
Proof.
  intros Hdir. unfold payload_error, SaveBaseData. by rewrite Hdir.
Qed.

(** After a [SaveScene] that got its staging directory, the failed
    nodes are the nodes of this set for whose payload [SaveBaseData]
    raised the error flag, in the order of the set, and nothing of what
    the list held before; a node without data is never among them. *)
Theorem SaveScene_failed_nodes (this : SceneIO) (nodes : list (option DataNodePtr))
    (ds : DataStorage) (filename : string) (w : World) :
  filename <> "" ->
  (CreateEmptyTempDirectory E w).1 <> "" ->
  let dir := (CreateEmptyTempDirectory E w).1 in
  let fails := payload_error E (set_WorkingDirectory dir SceneIO_New) in
  GetFailedNodes (SaveScene E this (Some nodes) (Some ds) filename w).1.2
    = Some (List.filter fails (non_null nodes)) /\
  forall p, fails p = true -> GetData (deref E p) <> None.
Proof.
  intros Hname Hdir. cbv zeta. split.
  - rewrite (SaveScene_run E this nodes ds filename w Hname Hdir). cbv zeta. cbn.
    f_equal.
    match goal with
    | |- failedNodes (write_nodes E ?t ?u nodes ?ws) = _ =>
        destruct (write_nodes_spec E t u nodes ws) as [_ ->]
    end.
    cbn [failedNodes start_state app].
    apply filter_ext_in. intros p _. by apply payload_error_WorkingDirectory.
  - intros p Hp Hdata. unfold payload_error in Hp. by rewrite Hdata in Hp.
Qed.

End SaveOutcomes.

(** ** The failure accumulators and the entries of the manifest *)

Section Accumulators.

Variable E : Env.
Variable this : SceneIO.

Lemma SavePropertyList_grows (pl : PropertyList) (hint : string) (fp : gset string) :
  fp ⊆ (SavePropertyList E this pl hint fp).2.
Proof.
  unfold SavePropertyList, ConcatenatePropertyList.
  destruct (PropertyListSerializer_Serialize E pl hint _) as [file [failed |] |]; cbn;
    set_solver.
Qed.

Lemma store_basedata_grows (node : DataNodePtr) (hint : string) (el : TiXmlNode)
    (fn : list DataNodePtr) (fp : gset string) :
  fp ⊆ (store_basedata E this node hint (el, fn, fp)).2.
Proof.
  unfold store_basedata. destruct (GetData (deref E node)) as [data |]; [| done].
  destruct (SaveBaseData E this data hint) as [dataElement error].
  destruct (usable (bd_GetPropertyList data)) as [pl |]; [| done].
  pose proof (SavePropertyList_grows pl (hint +:+ "-data") fp) as Hgrow.
  by destruct (SavePropertyList E this pl _ fp).
Qed.

Lemma store_renderwindow_lists_grows (node : DataNodePtr) (hint : string)
    (el : TiXmlNode) (fp : gset string) :
  fp ⊆ (store_renderwindow_lists E this node hint (el, fp)).2.
Proof.
  unfold store_renderwindow_lists.
  generalize (GetPropertyListNames (deref E node)) as names. intros names.
  revert el fp. induction names as [| name names IH]; intros el fp; [done |].
  cbn [fold_left].
  destruct (usable (GetPropertyListOf (deref E node) name)) as [pl |]; [| apply IH].
  pose proof (SavePropertyList_grows pl (hint +:+ "-" +:+ name) fp) as Hgrow.
  destruct (SavePropertyList E this pl _ fp) as [el1 fp1]. cbn [snd] in Hgrow.
  etrans; [exact Hgrow | apply IH].
Qed.

Lemma store_node_list_grows (node : DataNodePtr) (hint : string)
    (el : TiXmlNode) (fp : gset string) :
  fp ⊆ (store_node_list E this node hint (el, fp)).2.
Proof.
  unfold store_node_list.
  destruct (usable (GetPropertyList (deref E node))) as [pl |]; [| done].
  pose proof (SavePropertyList_grows pl (hint +:+ "-node") fp) as Hgrow.
  by destruct (SavePropertyList E this pl _ fp).
Qed.

Lemma build_node_grows (uids : UIDState) (node : DataNodePtr)
    (fn : list DataNodePtr) (fp : gset string) :
  fp ⊆ (build_node E this uids node fn fp).2.
Proof.
  unfold build_node.
  set (hint := MakeCindentifier E (GetName (deref E node))).
  pose proof (store_basedata_grows node hint (node_header uids node) fn fp) as H1.
  destruct (store_basedata E this node hint _) as [[el1 fn1] fp1]. cbn [snd] in H1.
  pose proof (store_renderwindow_lists_grows node hint el1 fp1) as H2.
  destruct (store_renderwindow_lists E this node hint _) as [el2 fp2]. cbn [snd] in H2.
  pose proof (store_node_list_grows node hint el2 fp2) as H3.
  destruct (store_node_list E this node hint _) as [el3 fp3]. cbn [snd] in H3 |- *.
  by etrans; [| etrans].
Qed.

(** The second loop only adds to the failure accumulators: the failed
    nodes it started with are a prefix of the failed nodes it ends with,
    and no failed property is dropped. *)
Theorem failure_accumulators_grow (uids : UIDState)
    (entries : list (option DataNodePtr)) (ws : WriteState) :
  failedNodes ws `prefix_of` failedNodes (write_nodes E this uids entries ws) /\
  failedProperties ws ⊆ failedProperties (write_nodes E this uids entries ws).
Proof.
  split.
  - destruct (write_nodes_spec E this uids entries ws) as [_ ->]. by eexists.
  - unfold write_nodes. revert ws.
    induction entries as [| [node |] entries IH]; intros ws; [done | | apply IH].
    cbn [fold_left]. etrans; [| apply IH].
    unfold write_node.
    pose proof (build_node_grows uids node (failedNodes ws) (failedProperties ws))
      as Hgrow.
    by destruct (build_node E this uids node _ _) as [[el fn] fp].
Qed.

(** A property list that is null or empty is not written.  The
    [properties] elements of the entry of a node are one per render
    window whose list is there and not empty, in the order of the names
    and marked with the name, followed by one without a mark for the
    default list when that is there and not empty. *)
Theorem property_lists_in_entry (uids : UIDState) (node : DataNodePtr) :
  Attribute "renderwindow" <$> ChildElements "properties" (node_element E this uids node)
    = (Some <$> List.filter
                  (fun name =>
                     bool_decide (is_Some (usable (GetPropertyListOf (deref E node) name))))
                  (GetPropertyListNames (deref E node)))
      ++ (match usable (GetPropertyList (deref E node)) with
          | Some _ => [None]
          | None => []
          end).
Proof.
  unfold node_element, build_node. rewrite node_header_shape.
  set (hint := MakeCindentifier E (GetName (deref E node))).
  set (A := match nodeUIDs uids !! node with Some u => [("UID", u)] | None => [] end).
  set (K := mk_source <$> default [] (sourceUIDs uids !! node)).
  pose proof (store_basedata_shape E this node "node" A K [] ∅)
    as (_ & payload & Hel & _ & Hpayload).
  cbv zeta in Hel. fold hint in Hel.
  destruct (store_basedata E this node hint (TiXmlElement "node" A K, [], ∅))
    as [[el1 fn1] fp1]. cbn in Hel. subst el1.
  assert (Hhead : List.filter (fun c => String.eqb (Value c) "properties") (K ++ payload)
                  = []).
  { rewrite List.filter_app, (others_are_not "properties" "source"); cbn [app].
    - destruct (GetData (deref E node)).
      + by destruct Hpayload as (? & ? & -> & _).
      + by subst payload.
    - discriminate.
    - apply Forall_fmap, Forall_true. reflexivity. }
  assert (Hrw : forall names k fp,
            exists extra,
              (fold_left
                 (fun (a : TiXmlNode * gset string) renderWindowName =>
                    let (nodeElement, failedP) := a in
                    match usable (GetPropertyListOf (deref E node) renderWindowName) with
                    | Some propertyList =>
                        let (renderWindowPropertiesElement, fp0) :=
                          SavePropertyList E this propertyList
                            (hint +:+ "-" +:+ renderWindowName) failedP in
                        (LinkEndChild
                           (SetAttribute "renderwindow" renderWindowName
                              renderWindowPropertiesElement) nodeElement, fp0)
                    | None => a
                    end) names (TiXmlElement "node" A k, fp)).1
              = TiXmlElement "node" A (k ++ extra) /\
              Forall (fun c => Value c = "properties") extra /\
              Attribute "renderwindow" <$> extra =
                Some <$> List.filter
                           (fun name =>
                              bool_decide
                                (is_Some (usable (GetPropertyListOf (deref E node) name))))
                           names).
  { induction names as [| name names IH]; intros k fp.
    - exists []. cbn. by rewrite app_nil_r.
    - cbn [fold_left List.filter].
      destruct (usable (GetPropertyListOf (deref E node) name)) as [pl |] eqn:Hpl.
      + rewrite bool_decide_eq_true_2 by eauto.
        pose proof (SavePropertyList_Value E this pl (hint +:+ "-" +:+ name) fp) as Hval.
        destruct (SavePropertyList E this pl (hint +:+ "-" +:+ name) fp) as [el fp0].
        cbn [fst] in Hval. cbn [LinkEndChild].
        destruct (IH (k ++ [SetAttribute "renderwindow" name el]) fp0)
          as (extra & -> & Hall & Htags).
        exists (SetAttribute "renderwindow" name el :: extra).
        split; [by rewrite <- app_assoc |]. split.
        * constructor; [by rewrite Value_SetAttribute | exact Hall].
        * cbn [fmap list_fmap]. f_equal; [| exact Htags].
          destruct el as [| tag attrs kids]; [done |]. cbn.
          clear. induction attrs as [| [n v] attrs IHa]; cbn.
          -- reflexivity.
          -- destruct (String.eqb n "renderwindow") eqn:Hn; cbn; by rewrite Hn.
      + rewrite bool_decide_eq_false_2 by (intros [? ?]; done). apply IH. }
  unfold store_renderwindow_lists.
  destruct (Hrw (GetPropertyListNames (deref E node)) (K ++ payload) fp1)
    as (extra1 & Hfold & Hall1 & Htags1).
  destruct (fold_left _ (GetPropertyListNames (deref E node)) _) as [el2 fp2].
  cbn [fst] in Hfold. subst el2.
  unfold store_node_list.
  destruct (usable (GetPropertyList (deref E node))) as [pl |].
  - assert (Hdefault : exists attrs,
              (SavePropertyList E this pl (hint +:+ "-node") fp2).1
                = TiXmlElement "properties" attrs [] /\
              get_attr "renderwindow" attrs = None).
    { unfold SavePropertyList.
      destruct (PropertyListSerializer_Serialize E pl _ _); cbn; eauto. }
    destruct Hdefault as (attrs & Hel & Hnone).
    destruct (SavePropertyList E this pl (hint +:+ "-node") fp2) as [el3 fp3].
    cbn [fst] in Hel. subst el3. cbn [fst LinkEndChild].
    unfold ChildElements. cbn [Children].
    rewrite (List.filter_app _ ((K ++ payload) ++ extra1)),
      (List.filter_app _ (K ++ payload) extra1), Hhead. cbn [app].
    rewrite (filter_all _ extra1).
    + cbn. rewrite fmap_app, Htags1. cbn. by rewrite Hnone.
    + eapply Forall_impl; [exact Hall1 |]. cbn. by intros c ->.
  - cbn [fst]. unfold ChildElements. cbn [Children].
    rewrite (List.filter_app _ (K ++ payload) extra1), Hhead. cbn [app].
    rewrite (filter_all _ extra1).
    + by rewrite app_nil_r.
    + eapply Forall_impl; [exact Hall1 |]. cbn. by intros c ->.
Qed.

End Accumulators.

(** ** Choosing a serializer *)

Section Serializers.

Variable E : Env.
Variable this : SceneIO.

Lemma first_serializer_skips (skipped rest : list LightObject)
    (run : BaseData -> string -> string -> option string) :
  Forall (fun c => c = OtherObject) skipped ->
  first_serializer (skipped ++ BaseDataSerializer run :: rest) = Some run.
Proof. induction 1 as [| c skipped -> _ IH]; [reflexivity | exact IH]. Qed.

Lemma first_serializer_none (candidates : list LightObject) :
  Forall (fun c => c = OtherObject) candidates -> first_serializer candidates = None.
Proof. induction 1 as [| c candidates -> _ IH]; [reflexivity | exact IH]. Qed.

(** The first object of the candidate list that is a serializer
    decides: [SaveBaseData] writes the file reference it returns, or
    raises the error flag when it throws, and the candidates after it
    are not asked, even then. *)
Theorem SaveBaseData_first_serializer_decides (data : BaseData) (hint : string)
    (skipped rest : list LightObject)
    (run : BaseData -> string -> string -> option string) :
  Forall (fun c => c = OtherObject) skipped ->
  CreateAllInstance E (GetNameOfClass data +:+ "Serializer")
    = skipped ++ BaseDataSerializer run :: rest ->
  SaveBaseData E this data hint =
    match run data hint (m_WorkingDirectory this) with
    | Some file =>
        (TiXmlElement "data" [("type", GetNameOfClass data); ("file", file)] [], false)
    | None => (TiXmlElement "data" [("type", GetNameOfClass data)] [], true)
    end.
Proof.
  intros Hskipped Hlist. unfold SaveBaseData, Path_transcode.
  rewrite Hlist, (first_serializer_skips skipped rest run Hskipped).
  by destruct (run data hint (m_WorkingDirectory this)).
Qed.

(** With no serializer among the candidates, none at all included,
    [SaveBaseData] raises the error flag and still returns the [data]
    element, with the type and without a file. *)
Theorem SaveBaseData_without_serializer (data : BaseData) (hint : string) :
  Forall (fun c => c = OtherObject)
    (CreateAllInstance E (GetNameOfClass data +:+ "Serializer")) ->
  SaveBaseData E this data hint
    = (TiXmlElement "data" [("type", GetNameOfClass data)] [], true).
Proof.
  intros Hnone. unfold SaveBaseData. by rewrite (first_serializer_none _ Hnone).
Qed.

(** Every [node] element of the manifest has a [UID] attribute, and it
    is an identifier that [nodeUIDGen] handed out during this save. *)
Theorem manifest_entries_have_identifier (ds : DataStorage)
    (nodes : list (option DataNodePtr)) (w : World) (e : TiXmlNode) :
  e ∈ node_entries (manifest E this ds nodes w) ->
  exists k,
    uid_count w <= k < uid_count (uid_world (find_dependencies E ds nodes w)) /\
    Attribute "UID" e = Some (object_uid E k).
Proof.
  rewrite manifest_entries. intros He.
  apply list_elem_of_fmap in He as (p & -> & Hp). apply elem_of_non_null in Hp.
  destruct (find_dependencies_spec E ds nodes w) as (HI & Hsome & _).
  destruct (Hsome p Hp) as [u Hu].
  destruct (inv_drawn _ _ _ _ HI p u Hu) as (k & Hk & -> & _).
  exists k. split; [exact Hk |]. by rewrite node_element_UID.
Qed.

End Serializers.

(** ** What a load leaves behind *)

Section LoadEffects.

Variable E : Env.



(** [LoadSceneUnzipped] clears the storage before it looks at the file
    name: called with the flag and an empty name it loads nothing and
    hands back the storage without its nodes. *)
Theorem LoadSceneUnzipped_clears_without_name (l : nat) (w : World) :
  DataStorage_Remove E (storage_at w l) = Removed ->
  let r := LoadSceneUnzipped E "" (Some l) true w in
  r.1 = Some l /\ GetAll (storage_at r.2 l) = [].
Proof.
  intros Hremove. cbv zeta.
  destruct (LoadSceneUnzipped_supplied E "" l true w) as (Hp & _ & _ & Hnodes).
  split; [exact Hp |]. rewrite Hnodes. unfold cleared, reloaded.
  rewrite Hremove, Remove_GetAll. reflexivity.
Qed.

Lemma LoadSceneUnzipped_others (indexfilename : string) (l : nat)
    (clearStorageFirst : bool) (w : World) (l' : nat) :
  l' <> l ->
  storages (LoadSceneUnzipped E indexfilename (Some l) clearStorageFirst w).2 !! l'
    = storages w !! l'.
Proof.
  intros Hne. unfold LoadSceneUnzipped, reader_LoadScene, clear_storage.
  cbn [prepare_storage].
  destruct clearStorageFirst;
    [destruct (DataStorage_Remove E (storage_at w l)) |];
    (destruct (string_empty indexfilename);
     [| destruct (TiXml_LoadFile E indexfilename) as [doc |]]);
    cbn.
  all: try (match goal with
            | |- context [SceneReader_LoadScene E ?d ?p ?x] =>
                destruct (SceneReader_LoadScene E d p x) as [ok added]
            end; cbn).
  all: by rewrite ?lookup_insert_ne.
Qed.

(** [LoadScene] works on one storage, the one it was given or the one
    it made, and changes no other. *)
Theorem LoadScene_other_storages (this : SceneIO) (filename : string)
    (pStorage : option nat) (clearStorageFirst : bool) (w : World) (l' : nat) :
  l' <> (prepare_storage pStorage w).1 ->
  storages (LoadScene E this filename pStorage clearStorageFirst w).2 !! l'
    = storages w !! l'.
Proof.
  intros Hne. rewrite LoadScene_prepare.
  assert (Hprep : storages (prepare_storage pStorage w).2 !! l' = storages w !! l').
  { destruct pStorage as [l0 |]; [reflexivity |]. cbn in Hne |- *.
    by rewrite lookup_insert_ne. }
  rewrite <- Hprep.
  set (l := (prepare_storage pStorage w).1) in *.
  generalize (prepare_storage pStorage w).2 as w0. intros w0.
  unfold LoadScene. cbn [prepare_storage].
  destruct (string_empty filename); [reflexivity |].
  destruct (negb (ifstream_good E filename)); [reflexivity |].
  pose proof (CreateEmptyTempDirectory_storages E w0) as Hst.
  destruct (CreateEmptyTempDirectory E w0) as [dir w1]. cbn [snd] in Hst.
  destruct (string_empty _); [cbn; by rewrite Hst |].
  match goal with
  | |- context [LoadSceneUnzipped E ?i (Some l) ?c w1] =>
      pose proof (LoadSceneUnzipped_others i l c w1 l' Hne) as Hothers;
      destruct (LoadSceneUnzipped E i (Some l) c w1) as [p w2]
  end.
  cbn [snd] in Hothers |- *.
  by rewrite delete_temp_directory_storages, Hothers, Hst.
Qed.

End LoadEffects.

(** ** The further properties at the sample scenes *)

Lemma SaveScene_rejects_missing_input_witness :
  let r := SaveScene Sample.calm Faulty.used (Some [Some 1]) None "scene.mitk"
             (Sample.world []) in
  r.1.1 = false /\ GetFailedNodes r.1.2 = Some [8] /\ r.2 = Sample.world [].
Proof.
  cbv zeta.
  rewrite (SaveScene_rejects_missing_input Sample.calm Faulty.used (Some [Some 1]) None
             "scene.mitk" (Sample.world []));
    [by repeat split | right; by left].
Defined.

Lemma SaveScene_without_staging_witness :
  let r := SaveScene (Faulty.env true false 0) Faulty.used (Some [Some 1])
             (Some Sample.storage) "scene.mitk" (Sample.world []) in
  r.1.1 = false /\ GetFailedNodes r.1.2 = Some [] /\ directories r.2 = [].
Proof.
  destruct (SaveScene_without_staging (Faulty.env true false 0) Faulty.used [Some 1]
              Sample.storage "scene.mitk" (Sample.world []))
    as (Hfalse & Hnodes & _ & _ & Hdirs & _).
  - discriminate.
  - reflexivity.
  - split; [exact Hfalse |]. split; [exact Hnodes | exact Hdirs].
Defined.

Lemma SaveScene_true_witness :
  let r := SaveScene Sample.calm SceneIO_New (Some [Some 1; Some 3])
             (Some Sample.storage) "scene.mitk" (Sample.world []) in
  m_WorkingDirectory r.1.2 = "/tmp/SceneIOTempUID_0" /\
  archives r.2 = [("scene.mitk", "/tmp/SceneIOTempUID_0")] /\
  directory_exists "/tmp/SceneIOTempUID_0" r.2 = false.
Proof.
  destruct (SaveScene_true Sample.calm SceneIO_New [Some 1; Some 3] Sample.storage
              "scene.mitk" (Sample.world []))
    as (_ & _ & Hdir & _ & Harch & Hgone).
  - reflexivity.
  - split; [exact Hdir |]. split; [exact Harch | exact Hgone].
Defined.

Lemma SaveScene_empty_scene_witness :
  let r := SaveScene Sample.calm SceneIO_New (Some []) (Some Sample.storage)
             "scene.mitk" (Sample.world []) in
  r.1.1 = true /\
  saved_documents r.2 = [("/tmp/SceneIOTempUID_0/index.xml", document_start Sample.calm)].
Proof.
  destruct (SaveScene_empty_scene Sample.calm SceneIO_New Sample.storage "scene.mitk"
              (Sample.world [])) as (Hok & _ & _ & Hdocs & _).
  - apply sample_io_succeeds.
  - apply sample_uid_generator_ok.
  - discriminate.
  - split; [exact Hok | exact Hdocs].
Defined.

Lemma SaveScene_removal_failure_witness :
  let r := SaveScene (Faulty.env false true 0) SceneIO_New (Some [Some 1])
             (Some Sample.storage) "scene.mitk" (Sample.world []) in
  r.1.1 = false /\
  archives r.2 = [("scene.mitk", "/tmp/SceneIOTempUID_0")] /\
  directory_exists "/tmp/SceneIOTempUID_0" r.2 = true.
Proof.
  apply (SaveScene_removal_failure (Faulty.env false true 0) SceneIO_New [Some 1]
           Sample.storage "scene.mitk" (Sample.world [])); try done.
  exact tally_plain.
Defined.

Lemma SaveScene_failed_nodes_witness :
  GetFailedNodes
    (SaveScene Sample.calm Faulty.used (Some [Some 2; Some 3; Some 1; Some 2])
       (Some Sample.storage) "scene.mitk" (Sample.world [])).1.2
  = Some [2; 2].
Proof.
  destruct (SaveScene_failed_nodes Sample.calm Faulty.used
              [Some 2; Some 3; Some 1; Some 2] Sample.storage "scene.mitk"
              (Sample.world [])) as [Hfailed _].
  - discriminate.
  - vm_compute. discriminate.
  - exact Hfailed.
Defined.

Lemma SaveBaseData_first_serializer_decides_witness :
  SaveBaseData (Faulty.env false false 0) SceneIO_New Sample.image "ct_scan"
  = (TiXmlElement "data" [("type", "Image"); ("file", "ct_scan.nrrd")] [], false).
Proof.
  rewrite (SaveBaseData_first_serializer_decides (Faulty.env false false 0) SceneIO_New
             Sample.image "ct_scan" [OtherObject]
             [BaseDataSerializer (fun _ hint _ => Some (hint +:+ ".png"))]
             (fun _ hint _ => Some (hint +:+ ".nrrd"))).
  - reflexivity.
  - by repeat constructor.
  - reflexivity.
Defined.

Lemma SaveBaseData_without_serializer_witness :
  SaveBaseData (Faulty.env false false 0) SceneIO_New Sample.surface "liver"
  = (TiXmlElement "data" [("type", "Surface")] [], true).
Proof.
  apply (SaveBaseData_without_serializer (Faulty.env false false 0) SceneIO_New
           Sample.surface "liver").
  by repeat constructor.
Defined.

Lemma manifest_entries_have_identifier_witness :
  let E := Sample.calm in
  let w := Sample.world [] in
  let e := node_element E SceneIO_New (find_dependencies E Sample.storage [Some 3] w) 3 in
  exists k, 0 <= k < 1 /\ Attribute "UID" e = Some (object_uid E k).
Proof.
  intros E w e.
  apply (manifest_entries_have_identifier E SceneIO_New Sample.storage [Some 3] w e).
  vm_compute. by left.
Defined.


Lemma LoadSceneUnzipped_clears_without_name_witness :
  let w := Sample.world_with Sample.storage in
  GetAll (storage_at w 5) = [1; 2; 3; 9] /\
  GetAll (storage_at (LoadSceneUnzipped Sample.calm "" (Some 5) true w).2 5) = [].
Proof.
  intros w. split; [reflexivity |].
  by apply (LoadSceneUnzipped_clears_without_name Sample.calm 5 w).
Defined.

Lemma LoadScene_other_storages_witness :
  let E := Sample.env true (Some []) [(20, [])] in
  let w := Sample.world_with Sample.storage in
  storages (LoadScene E SceneIO_New "scene.mitk" None true w).2 !! 5 = Some Sample.storage.
Proof.
  intros E w.
  rewrite (LoadScene_other_storages E SceneIO_New "scene.mitk" None true w 5).
  - reflexivity.
  - vm_compute. discriminate.
Defined.

Lemma LoadScene_early_return_witness :
  let w := Sample.world_with Sample.storage in
  GetAll (storage_at (LoadScene Sample.calm SceneIO_New "" (Some 5) true w).2 5)
  = [1; 2; 3; 9].
Proof.
  intros w.
  destruct (LoadScene_early_return Sample.calm SceneIO_New "" 5 true w) as [_ ->].
  - by left.
  - reflexivity.
Defined.

Lemma LoadScene_removes_staging_witness :
  let w := Sample.world_with Sample.storage in
  directory_exists "/tmp/SceneIOTempUID_0"
    (LoadScene Sample.calm SceneIO_New "scene.mitk" (Some 5) false w).2 = false.
Proof.
  intros w.
  apply (LoadScene_removes_staging Sample.calm SceneIO_New "scene.mitk" 5 false w).
  - discriminate.
  - reflexivity.
  - vm_compute. discriminate.
  - reflexivity.
Defined.

(** The entry of node 4: the list for [axial] is written and marked,
    the empty list for [sagittal] and the null list for [coronal] are
    not, and the default list comes last without a mark. *)
Lemma property_lists_of_node_4 :
  Attribute "renderwindow"
    <$> ChildElements "properties"
          (node_element (Faulty.env false false 0) SceneIO_New
             (initial_uids (Sample.world [])) 4)
  = [Some "axial"; None].
Proof. vm_compute. reflexivity. Qed.

(** ** More on accumulators, duplicates and fresh storages *)

Section Unrecorded.

Variable E : Env.
Variable this : SceneIO.

Hypothesis no_report : forall pl hint dir,
  match PropertyListSerializer_Serialize E pl hint dir with
  | PLWritten _ (Some _) => False
  | _ => True
  end.




End Unrecorded.

Section Duplicates.

Variable E : Env.

(** A node that is in the node set more than once has one entry per
    occurrence, all with its one identifier, and each of them lists the
    dependencies of the node once per occurrence. *)
Theorem duplicates_repeat_dependencies (this : SceneIO) (ds : DataStorage)
    (nodes : list (option DataNodePtr)) (w : World) (node : DataNodePtr) :
  let uids := find_dependencies E ds nodes w in
  let entry := node_element E this uids node in
  length (List.filter (fun p => bool_decide (p = node)) (non_null nodes))
    = occurrences node nodes /\
  node_entries (manifest E this ds nodes w) = node_element E this uids <$> non_null nodes /\
  source_refs entry =
    mjoin (replicate (occurrences node nodes)
             ((fun s => nodeUIDs uids !! s) <$> saved_sources ds nodes node)).
Proof.
  cbv zeta. split; [| split; [apply manifest_entries | apply source_refs_spec]].
  clear. induction nodes as [| [q |] entries IH]; [reflexivity | |].
  - rewrite occurrences_cons.
    change (non_null (Some q :: entries)) with (q :: non_null entries).
    cbn [List.filter]. destruct (decide (q = node)) as [-> | Hne].
    + rewrite !bool_decide_eq_true_2 by done. cbn [length]. by rewrite IH.
    + rewrite !bool_decide_eq_false_2 by congruence. by rewrite IH.
  - rewrite occurrences_cons, bool_decide_eq_false_2 by done. exact IH.
Qed.

(** Called without a storage, [LoadScene] makes one and returns it with
    the reloaded nodes and no others; the flag makes no difference. *)
Theorem LoadScene_fresh_storage (this : SceneIO) (filename : string)
    (clearStorageFirst : bool) (w : World) :
  let l := fresh (dom (storages w)) in
  let w0 := (prepare_storage None w).2 in
  filename <> "" ->
  ifstream_good E filename = true ->
  (CreateEmptyTempDirectory E w0).1 <> "" ->
  DataStorage_Remove E StandaloneDataStorage_New = Removed ->
  let indexFile :=
    (CreateEmptyTempDirectory E w0).1 +:+ GetDirectorySeparator +:+ "index.xml" in
  let r := LoadScene E this filename None clearStorageFirst w in
  r.1.1 = Some l /\
  GetAll (storage_at r.2 l) = reloaded E indexFile StandaloneDataStorage_New.
Proof.
  intros l w0 Hname Hgood Hdir Hremove. cbv zeta.
  rewrite LoadScene_prepare. change (prepare_storage None w).1 with l.
  change (prepare_storage None w).2 with w0.
  destruct (LoadScene_nodes E this filename l clearStorageFirst w0 Hname Hgood Hdir)
    as [Hp Hnodes].
  cbv zeta in Hp, Hnodes. split; [exact Hp |]. rewrite Hnodes.
  assert (Hnew : storage_at w0 l = StandaloneDataStorage_New).
  { unfold w0. cbn [prepare_storage snd]. apply storage_at_store. }
  assert (Hcleared : cleared E clearStorageFirst l w0 = StandaloneDataStorage_New).
  { unfold cleared. rewrite Hnew. destruct clearStorageFirst; [| reflexivity].
    rewrite Hremove. reflexivity. }
  rewrite Hcleared. reflexivity.
Qed.

End Duplicates.


Lemma LoadScene_fresh_storage_witness :
  let E := Sample.env true (Some []) [(20, []); (21, [20])] in
  let r := LoadScene E SceneIO_New "scene.mitk" None true
             (Sample.world_with Sample.storage) in
  r.1.1 = Some 6 /\ GetAll (storage_at r.2 6) = [20; 21].
Proof.
  intros E r.
  destruct (LoadScene_fresh_storage E SceneIO_New "scene.mitk" true
              (Sample.world_with Sample.storage)) as [Hp Hnodes].
  - discriminate.
  - reflexivity.
  - vm_compute. discriminate.
  - reflexivity.
  - split; [exact Hp | exact Hnodes].
Defined.
